(** * Ingestion decision and execution engine of mcp_server_korean_traffic

    A shallow embedding of the Python sources

      - ingestion/budget.py                  ([check_budget])
      - ingestion/scheduler.py               ([decide_collection])
      - ingestion/pipeline/call_log.py       ([insert_call_log])
      - ingestion/pipeline/raw_ingest.py     ([compute_payload_hash],
                                              [ingest_rows_page],
                                              [ingest_provider_result])
      - ingestion/providers/seoul_subway.py  ([_parse_row_element],
                                              [fetch_fixed_pages])
      - ingestion/runner/snapshot_runner.py  ([run_snapshot_once])
      - ingestion/orchestrator.py            ([get_last_snapshot_at],
                                              [run_orchestrator_once])

    Conventions.  A Python [int] is a [Z].  A Python [str] is represented by
    its UTF-8 encoding, a [string] of bytes: comparing two [str] by code point
    is comparing their encodings byte by byte, and [str.encode("utf-8")] is the
    identity on this representation.  A [dict] is an association list in
    insertion order.  A raised exception is the left injection of a sum. *)

From Stdlib Require Import ZArith List String Ascii Bool Lia Permutation.
From Stdlib Require Import Sorted DecimalString DecimalNat.
Import ListNotations.
Local Open Scope string_scope.
Local Open Scope list_scope.
Local Open Scope Z_scope.

(* ===================================================================== *)
(** * Exceptions *)
(* ===================================================================== *)

(** The exception classes the code raises or lets through; the payload is
    the message, which is what [str(e)] returns. *)
Inductive exn : Type :=
| ValueError (msg : string)
| RuntimeError (msg : string)
| Exception (msg : string).

Definition str_exn (e : exn) : string :=
  match e with
  | ValueError m | RuntimeError m | Exception m => m
  end.

Definition result (A : Type) : Type := (exn + A)%type.

(* ===================================================================== *)
(** * datetime *)
(* ===================================================================== *)

(** [datetime.date]. *)
Record date : Type := mk_date {
  d_year : Z;
  d_month : Z;
  d_day : Z
}.

(** [datetime.datetime].  [tzinfo] is [None] for a naive value; for an aware
    one it is the zone's UTC offset in seconds (the zones in play have a fixed
    offset: Asia/Seoul has been UTC+09:00 without daylight saving since
    1988). *)
Record datetime : Type := mk_datetime {
  year : Z;
  month : Z;
  day : Z;
  hour : Z;
  minute : Z;
  second : Z;
  microsecond : Z;
  tzinfo : option Z
}.

(** [pytz.timezone("Asia/Seoul")]. *)
Definition seoul_tz : Z := 9 * 3600.

(** A datetime in Asia/Seoul. *)
Definition kst (y mo d h mi s us : Z) : datetime :=
  mk_datetime y mo d h mi s us (Some seoul_tz).

Definition is_leap (y : Z) : bool :=
  (y mod 4 =? 0) && (negb (y mod 100 =? 0) || (y mod 400 =? 0)).

Definition days_before_year (y : Z) : Z :=
  let y1 := y - 1 in y1 * 365 + y1 / 4 - y1 / 100 + y1 / 400.

Definition DAYS_IN_MONTH : list Z :=
  [-1; 31; 28; 31; 30; 31; 30; 31; 31; 30; 31; 30; 31].

Definition DAYS_BEFORE_MONTH : list Z :=
  [-1; 0; 31; 59; 90; 120; 151; 181; 212; 243; 273; 304; 334].

Definition days_in_month (y m : Z) : Z :=
  if (m =? 2) && is_leap y then 29 else nth (Z.to_nat m) DAYS_IN_MONTH 0.

Definition days_before_month (y m : Z) : Z :=
  nth (Z.to_nat m) DAYS_BEFORE_MONTH 0
  + (if (2 <? m) && is_leap y then 1 else 0).

(** Proleptic Gregorian ordinal, 0001-01-01 being day 1. *)
Definition ymd2ord (y m d : Z) : Z :=
  days_before_year y + days_before_month y m + d.

Definition ord2ymd (n0 : Z) : Z * Z * Z :=
  let n := n0 - 1 in
  let n400 := n / 146097 in
  let n := n mod 146097 in
  let n100 := n / 36524 in
  let n := n mod 36524 in
  let n4 := n / 1461 in
  let n := n mod 1461 in
  let n1 := n / 365 in
  let n := n mod 365 in
  let y := n400 * 400 + 1 + n100 * 100 + n4 * 4 + n1 in
  if (n1 =? 4) || (n100 =? 4) then (y - 1, 12, 31)
  else
    let leapyear := (n1 =? 3) && (negb (n4 =? 24) || (n100 =? 3)) in
    let m := Z.shiftr (n + 50) 5 in
    let preceding :=
      nth (Z.to_nat m) DAYS_BEFORE_MONTH 0
      + (if (2 <? m) && leapyear then 1 else 0) in
    if n <? preceding then
      let m' := m - 1 in
      let preceding' :=
        preceding
        - (nth (Z.to_nat m') DAYS_IN_MONTH 0
           + (if (m' =? 2) && leapyear then 1 else 0)) in
      (y, m', n - preceding' + 1)
    else (y, m, n - preceding + 1).

Definition US_PER_SECOND : Z := 1000000.
Definition US_PER_DAY : Z := 86400 * US_PER_SECOND.

(** Microseconds of the wall-clock reading, counted from ordinal day 0. *)
Definition wall_us (d : datetime) : Z :=
  ((ymd2ord (year d) (month d) (day d) * 86400
    + hour d * 3600 + minute d * 60 + second d) * US_PER_SECOND)
  + microsecond d.

Definition utcoffset (d : datetime) : Z :=
  match tzinfo d with Some off => off | None => 0 end.

(** The instant on the UTC time line, in microseconds. *)
Definition utc_us (d : datetime) : Z :=
  wall_us d - utcoffset d * US_PER_SECOND.

(** The datetime whose wall-clock reading is [us] microseconds. *)
Definition of_wall_us (us : Z) (tz : option Z) : datetime :=
  let days := us / US_PER_DAY in
  let rest := us mod US_PER_DAY in
  let secs := rest / US_PER_SECOND in
  let '(y, m, d) := ord2ymd days in
  {| year := y; month := m; day := d;
     hour := secs / 3600;
     minute := (secs mod 3600) / 60;
     second := secs mod 60;
     microsecond := rest mod US_PER_SECOND;
     tzinfo := tz |}.

(** [d.astimezone(tz)] for an aware [d]. *)
Definition astimezone (d : datetime) (tz : Z) : datetime :=
  of_wall_us (utc_us d + tz * US_PER_SECOND) (Some tz).

(** [tz.localize(d)] for a naive [d]. *)
Definition localize (tz : Z) (d : datetime) : datetime :=
  {| year := year d; month := month d; day := day d;
     hour := hour d; minute := minute d; second := second d;
     microsecond := microsecond d; tzinfo := Some tz |}.

(** [d.replace(hour=h, minute=m, second=s, microsecond=us)]. *)
Definition replace_time (d : datetime) (h m s us : Z) : datetime :=
  {| year := year d; month := month d; day := day d;
     hour := h; minute := m; second := s; microsecond := us;
     tzinfo := tzinfo d |}.

(** [d + timedelta(days=n)]. *)
Definition add_days (d : datetime) (n : Z) : datetime :=
  of_wall_us (wall_us d + n * US_PER_DAY) (tzinfo d).

(** [a - b], a [timedelta], as its number of microseconds.  Both operands
    are aware, or both naive. *)
Definition datetime_sub (a b : datetime) : Z := utc_us a - utc_us b.

(** [a >= b]. *)
Definition datetime_ge (a b : datetime) : bool := utc_us b <=? utc_us a.

(** [int(td.total_seconds())] for a timedelta of [us] microseconds.
    [total_seconds()] is the float nearest to [us / 10**6]; for the deltas
    that occur here (below 2**53 microseconds) that float lies within 1e-9
    of the quotient, which is a multiple of 1e-6, so truncating it is
    truncating the exact quotient. *)
Definition int_total_seconds (us : Z) : Z := Z.quot us US_PER_SECOND.

(** [d.date()]. *)
Definition date_of (d : datetime) : date :=
  {| d_year := year d; d_month := month d; d_day := day d |}.

(** A well-formed [datetime] object. *)
Definition valid_datetime (d : datetime) : Prop :=
  1 <= year d <= 9999 /\ 1 <= month d <= 12 /\
  1 <= day d <= days_in_month (year d) (month d) /\
  0 <= hour d < 24 /\ 0 <= minute d < 60 /\ 0 <= second d < 60 /\
  0 <= microsecond d < US_PER_SECOND.

(** Decimal digit [k] (from the right, starting at 0) of [n]. *)
Definition digit (n : Z) (k : nat) : ascii :=
  ascii_of_nat (48 + Z.to_nat ((n / 10 ^ Z.of_nat k) mod 10)).

(** [n] in decimal, zero-padded to [width] digits. *)
Fixpoint zero_padded (width : nat) (n : Z) : string :=
  match width with
  | O => EmptyString
  | S w => String (digit n w) (zero_padded w n)
  end.

(** [d.strftime("%Y%m%d_%H%M%S")], for a four-digit year. *)
Definition strftime_snapshot (d : datetime) : string :=
  (zero_padded 4 (year d) ++ zero_padded 2 (month d) ++ zero_padded 2 (day d)
   ++ "_" ++ zero_padded 2 (hour d) ++ zero_padded 2 (minute d)
   ++ zero_padded 2 (second d))%string.

(* ===================================================================== *)
(** * ingestion/budget.py *)
(* ===================================================================== *)

Record BudgetDecision : Type := mk_budget {
  b_should_collect : bool;
  remaining_calls : Z;
  b_reason : string
}.

(** [daily_limit] is a keyword argument with default 1000: [None] stands for
    a call that leaves it out. *)
Definition check_budget (today : date) (used_calls_today required_calls : Z)
    (daily_limit : option Z) : BudgetDecision :=
  let daily_limit :=
    match daily_limit with Some l => l | None => 1000 end in
  let remaining_calls := daily_limit - used_calls_today in
  let remaining_calls := if remaining_calls <? 0 then 0 else remaining_calls in
  if required_calls <=? remaining_calls then
    {| b_should_collect := true;
       remaining_calls := remaining_calls;
       b_reason := "budget_ok" |}
  else
    {| b_should_collect := false;
       remaining_calls := remaining_calls;
       b_reason := "budget_exceeded" |}.

(* ===================================================================== *)
(** * ingestion/scheduler.py *)
(* ===================================================================== *)

Definition COMMUTE_INTERVAL_SECONDS : Z := 120.
Definition NORMAL_INTERVAL_SECONDS : Z := 900.

Inductive TimeBucket : Type := morning | evening | normal | night.

Record PolicyDecision : Type := mk_policy {
  should_collect : bool;
  interval_seconds : Z;
  time_bucket : TimeBucket
}.

Definition decide_collection (now : datetime) : result PolicyDecision :=
  match tzinfo now with
  | None => inl (ValueError "now는 timezone-aware datetime이어야 합니다")
  | Some _ =>
    let now_seoul := astimezone now seoul_tz in
    let time_seconds :=
      hour now_seoul * 3600 + minute now_seoul * 60 + second now_seoul in
    let morning_start := 7 * 3600 in
    let morning_end := 9 * 3600 + 30 * 60 in
    let evening_start := 17 * 3600 + 30 * 60 in
    let evening_end := 20 * 3600 in
    let night_start := 30 * 60 in
    let night_end := 5 * 3600 in
    if (night_start <=? time_seconds) && (time_seconds <=? night_end) then
      let next_collect_time := replace_time now_seoul 5 0 1 0 in
      let next_collect_time :=
        if datetime_ge now_seoul next_collect_time
        then add_days next_collect_time 1
        else next_collect_time in
      inr {| should_collect := false;
             interval_seconds :=
               int_total_seconds (datetime_sub next_collect_time now_seoul);
             time_bucket := night |}
    else if (morning_start <=? time_seconds) && (time_seconds <=? morning_end)
    then
      inr {| should_collect := true;
             interval_seconds := COMMUTE_INTERVAL_SECONDS;
             time_bucket := morning |}
    else if (evening_start <=? time_seconds) && (time_seconds <=? evening_end)
    then
      inr {| should_collect := true;
             interval_seconds := COMMUTE_INTERVAL_SECONDS;
             time_bucket := evening |}
    else
      inr {| should_collect := true;
             interval_seconds := NORMAL_INTERVAL_SECONDS;
             time_bucket := normal |}
  end.

(** ** The time policy in the words of the specification *)

(** The time of day as the code reads it: whole seconds since midnight. *)
Definition time_seconds (d : datetime) : Z :=
  hour d * 3600 + minute d * 60 + second d.




(* ===================================================================== *)
(** * Strings, dicts and JSON *)
(* ===================================================================== *)

(** A flat [dict[str, str]], in insertion order.  The keys of a dict are
    pairwise distinct. *)
Definition dict : Type := list (string * string).

Definition well_formed_dict (d : dict) : Prop := NoDup (map fst d).

(** [a < b] on [(key, value)] tuples: the first components decide, the
    second ones break a tie. *)
Definition item_ltb (a b : string * string) : bool :=
  match String.compare (fst a) (fst b) with
  | Lt => true
  | Gt => false
  | Eq => String.ltb (snd a) (snd b)
  end.

(** [sorted(d.items())].  The built-in is a stable merge sort driven by [<];
    so is this insertion sort, and on a total order both return the one
    ascending arrangement of the items. *)
Fixpoint insert_item (x : string * string) (l : dict) : dict :=
  match l with
  | [] => [x]
  | a :: l' => if item_ltb a x then a :: insert_item x l' else x :: a :: l'
  end.

Fixpoint sorted (l : dict) : dict :=
  match l with
  | [] => []
  | x :: l' => insert_item x (sorted l')
  end.

(** The double quote and the backslash. *)
Definition dquote : ascii := "034"%char.
Definition backslash : ascii := "092"%char.

(** [s] with a double quote in place of every single quote: a way to write
    string literals that hold double quotes. *)
Fixpoint quoted (s : string) : string :=
  match s with
  | EmptyString => EmptyString
  | String c s' =>
      String (if Ascii.eqb c "'" then dquote else c) (quoted s')
  end.

Definition hex_digit (n : Z) : ascii :=
  nth (Z.to_nat n) (list_ascii_of_string "0123456789abcdef") "0"%char.

(** The replacement [json.encoder] makes for one character of a string when
    [ensure_ascii] is false: the quote, the backslash and the control
    characters below 0x20 are escaped, everything else stands for itself. *)
Definition escape_char (c : ascii) : string :=
  let n := Z.of_N (N_of_ascii c) in
  if n =? 34 then String backslash (String dquote "")
  else if n =? 92 then String backslash (String backslash "")
  else if n =? 10 then String backslash "n"
  else if n =? 13 then String backslash "r"
  else if n =? 9 then String backslash "t"
  else if n =? 12 then String backslash "f"
  else if n =? 8 then String backslash "b"
  else if n <? 32 then
    String backslash (String "u" (String "0" (String "0"
      (String (hex_digit (n / 16)) (String (hex_digit (n mod 16)) "")))))
  else String c "".

Fixpoint escape (s : string) : string :=
  match s with
  | EmptyString => ""
  | String c s' => (escape_char c ++ escape s')%string
  end.

(** [py_encode_basestring]. *)
Definition encode_basestring (s : string) : string :=
  (String dquote (escape s) ++ String dquote "")%string.

(** The items of a dict as [json.dumps] writes them, [item_sep] before every
    item but the first and [key_sep] between key and value. *)
Fixpoint json_items (item_sep key_sep : string) (first : bool) (d : dict)
  : string :=
  match d with
  | [] => ""
  | (k, v) :: d' =>
      ((if first then "" else item_sep)
       ++ encode_basestring k ++ key_sep ++ encode_basestring v
       ++ json_items item_sep key_sep false d')%string
  end.

(** [json.dumps(d, ensure_ascii=False, separators=(item_sep, key_sep))]. *)
Definition json_dumps (d : dict) (item_sep key_sep : string) : string :=
  match d with
  | [] => "{}"
  | _ => (String "{" (json_items item_sep key_sep true d) ++ "}")%string
  end.

(* ===================================================================== *)
(** * hashlib.sha256 (FIPS 180-4) *)
(* ===================================================================== *)

Definition w32 (x : Z) : Z := x mod 2 ^ 32.
Definition add32 (a b : Z) : Z := w32 (a + b).
Definition rotr (n x : Z) : Z :=
  Z.lor (Z.shiftr x n) (w32 (Z.shiftl x (32 - n))).
Definition not32 (x : Z) : Z := Z.lxor x (2 ^ 32 - 1).

Definition Ch (x y z : Z) : Z := Z.lxor (Z.land x y) (Z.land (not32 x) z).
Definition Maj (x y z : Z) : Z :=
  Z.lxor (Z.lxor (Z.land x y) (Z.land x z)) (Z.land y z).
Definition Sigma0 (x : Z) : Z :=
  Z.lxor (Z.lxor (rotr 2 x) (rotr 13 x)) (rotr 22 x).
Definition Sigma1 (x : Z) : Z :=
  Z.lxor (Z.lxor (rotr 6 x) (rotr 11 x)) (rotr 25 x).
Definition sigma0 (x : Z) : Z :=
  Z.lxor (Z.lxor (rotr 7 x) (rotr 18 x)) (Z.shiftr x 3).
Definition sigma1 (x : Z) : Z :=
  Z.lxor (Z.lxor (rotr 17 x) (rotr 19 x)) (Z.shiftr x 10).

Definition K256 : list Z :=
  [1116352408; 1899447441; 3049323471; 3921009573; 961987163; 1508970993;
   2453635748; 2870763221; 3624381080; 310598401; 607225278; 1426881987;
   1925078388; 2162078206; 2614888103; 3248222580; 3835390401; 4022224774;
   264347078; 604807628; 770255983; 1249150122; 1555081692; 1996064986;
   2554220882; 2821834349; 2952996808; 3210313671; 3336571891; 3584528711;
   113926993; 338241895; 666307205; 773529912; 1294757372; 1396182291;
   1695183700; 1986661051; 2177026350; 2456956037; 2730485921; 2820302411;
   3259730800; 3345764771; 3516065817; 3600352804; 4094571909; 275423344;
   430227734; 506948616; 659060556; 883997877; 958139571; 1322822218;
   1537002063; 1747873779; 1955562222; 2024104815; 2227730452; 2361852424;
   2428436474; 2756734187; 3204031479; 3329325298].

(** The eight working words of the hash. *)
Record sha_state : Type := mk_sha {
  h0 : Z; h1 : Z; h2 : Z; h3 : Z; h4 : Z; h5 : Z; h6 : Z; h7 : Z
}.

Definition sha_init : sha_state :=
  mk_sha 0x6a09e667 0xbb67ae85 0x3c6ef372 0xa54ff53a
         0x510e527f 0x9b05688c 0x1f83d9ab 0x5be0cd19.

(** The message with its padding: a 1 bit, zeros, and the bit length as a
    64-bit big-endian number, up to a multiple of 64 bytes. *)
Definition be_bytes (width : nat) (n : Z) : list Z :=
  map (fun i => (n / 256 ^ Z.of_nat i) mod 256) (rev (seq 0 width)).

Definition sha_pad (msg : list Z) : list Z :=
  let len := Z.of_nat (List.length msg) in
  let zeros := Z.to_nat ((55 - len) mod 64) in
  msg ++ [128] ++ repeat 0 zeros ++ be_bytes 8 (8 * len).

(** Big-endian 32-bit words of a block. *)
Fixpoint words_of_bytes (b : list Z) : list Z :=
  match b with
  | b3 :: b2 :: b1 :: b0 :: rest =>
      (((b3 * 256 + b2) * 256 + b1) * 256 + b0) :: words_of_bytes rest
  | _ => []
  end.

(** The message schedule, most recent word first. *)
Fixpoint schedule (n : nat) (w : list Z) : list Z :=
  match n with
  | O => w
  | S n' =>
      let wt :=
        add32 (add32 (sigma1 (nth 1 w 0)) (nth 6 w 0))
              (add32 (sigma0 (nth 14 w 0)) (nth 15 w 0)) in
      schedule n' (wt :: w)
  end.

Definition sha_round (s : sha_state) (kw : Z * Z) : sha_state :=
  let '(k, w) := kw in
  let t1 :=
    add32 (add32 (add32 (add32 (h7 s) (Sigma1 (h4 s)))
                        (Ch (h4 s) (h5 s) (h6 s))) k) w in
  let t2 := add32 (Sigma0 (h0 s)) (Maj (h0 s) (h1 s) (h2 s)) in
  mk_sha (add32 t1 t2) (h0 s) (h1 s) (h2 s)
         (add32 (h3 s) t1) (h4 s) (h5 s) (h6 s).

Definition sha_block (s : sha_state) (block : list Z) : sha_state :=
  let w := rev (schedule 48 (rev (words_of_bytes block))) in
  let r := fold_left sha_round (combine K256 w) s in
  mk_sha (add32 (h0 s) (h0 r)) (add32 (h1 s) (h1 r))
         (add32 (h2 s) (h2 r)) (add32 (h3 s) (h3 r))
         (add32 (h4 s) (h4 r)) (add32 (h5 s) (h5 r))
         (add32 (h6 s) (h6 r)) (add32 (h7 s) (h7 r)).

Fixpoint sha_blocks (n : nat) (s : sha_state) (bytes : list Z) : sha_state :=
  match n with
  | O => s
  | S n' => sha_blocks n' (sha_block s (firstn 64 bytes)) (skipn 64 bytes)
  end.

(** [hashlib.sha256(msg)]: the state after the last block. *)
Definition sha256 (msg : list Z) : sha_state :=
  let padded := sha_pad msg in
  sha_blocks (Nat.div (List.length padded) 64) sha_init padded.

(** The eight hexadecimal digits of a 32-bit word. *)
Definition word_hex (w : Z) : string :=
  string_of_list_ascii
    (map (fun i => hex_digit ((w / 16 ^ Z.of_nat i) mod 16))
         (rev (seq 0 8))).

(** [.hexdigest()]. *)
Definition hexdigest (s : sha_state) : string :=
  (word_hex (h0 s) ++ word_hex (h1 s) ++ word_hex (h2 s) ++ word_hex (h3 s)
   ++ word_hex (h4 s) ++ word_hex (h5 s) ++ word_hex (h6 s)
   ++ word_hex (h7 s))%string.

(** [s.encode("utf-8")], on the representation of a [str] by its encoding. *)
Definition encode_utf8 (s : string) : list Z :=
  map (fun c => Z.of_N (N_of_ascii c)) (list_ascii_of_string s).

(* ===================================================================== *)
(** * ingestion/pipeline/raw_ingest.py: compute_payload_hash *)
(* ===================================================================== *)

(** The canonical form that is hashed: the items sorted and written without
    blanks. *)
Definition canonical_json (raw_payload : dict) : string :=
  let sorted_payload := sorted raw_payload in
  json_dumps sorted_payload "," ":".

Definition compute_payload_hash (raw_payload : dict) : string :=
  let json_str := canonical_json raw_payload in
  let hash_obj := sha256 (encode_utf8 json_str) in
  hexdigest hash_obj.

(** ** The content hash in the words of the specification *)



(** ** Reading an escaped string back *)

(** The value of a hexadecimal digit. *)
Definition hex_val (c : ascii) : Z :=
  let n := Z.of_N (N_of_ascii c) in
  if (48 <=? n) && (n <=? 57) then n - 48 else n - 87.

(** The character that a string produced by [escape] starts with, and the
    rest of the string. *)
Definition unescape_head (s : string) : option (ascii * string) :=
  match s with
  | EmptyString => None
  | String c rest =>
      if negb (Ascii.eqb c backslash) then Some (c, rest)
      else
        match rest with
        | EmptyString => None
        | String x rest' =>
            if Ascii.eqb x dquote then Some (dquote, rest')
            else if Ascii.eqb x backslash then Some (backslash, rest')
            else if Ascii.eqb x "n" then Some ("010"%char, rest')
            else if Ascii.eqb x "r" then Some ("013"%char, rest')
            else if Ascii.eqb x "t" then Some ("009"%char, rest')
            else if Ascii.eqb x "f" then Some ("012"%char, rest')
            else if Ascii.eqb x "b" then Some ("008"%char, rest')
            else
              match rest' with
              | String _ (String _ (String a (String b r))) =>
                  Some (ascii_of_N (Z.to_N (16 * hex_val a + hex_val b)), r)
              | _ => None
              end
        end
  end.

(** Every word of the state is a 32-bit number. *)
Definition sha_state_ok (s : sha_state) : Prop :=
  0 <= h0 s < 2 ^ 32 /\ 0 <= h1 s < 2 ^ 32 /\ 0 <= h2 s < 2 ^ 32 /\
  0 <= h3 s < 2 ^ 32 /\ 0 <= h4 s < 2 ^ 32 /\ 0 <= h5 s < 2 ^ 32 /\
  0 <= h6 s < 2 ^ 32 /\ 0 <= h7 s < 2 ^ 32.
(* ===================================================================== *)
(** * The collaborators: provider, connection and clock *)
(* ===================================================================== *)

(** What [provider.fetch_page] returns. *)
Record PageData : Type := mk_page_data {
  result_code : string;
  result_message : string;
  pd_total_count : option Z;
  pd_rows : list dict
}.

(** One tuple of values for [INSERT INTO subway_arrival_raw]. *)
Record RawValues : Type := mk_raw_values {
  rv_snapshot_id : string;
  rv_collected_at : datetime;
  rv_page_start : Z;
  rv_page_end : Z;
  rv_raw_payload : string;
  rv_payload_hash : string
}.

(** The SQL statements of the code, with their parameters. *)
Inductive statement : Type :=
| InsertCallLog (call_date : date) (snapshot_id : string)
    (page_start page_end : Z) (called_at : datetime) (status : string)
| InsertRaw (insert_rows : list RawValues)
| SelectLastSnapshotAt.

(** The calls the code makes on the objects it is handed: the provider, the
    clock, the MySQL connection and its cursors. *)
Inductive call : Type :=
| FetchPage (start end_ : Z)
| ClockNow
| ConnCursor
| CursorExecute (s : statement)
| CursorFetchone
| CursorClose
| ConnCommit
| ConnRollback.

(** The calls made so far, oldest first, each with whether it returned
    ([true]) or raised ([false]). *)
Definition trace : Type := list (call * bool).

(** The behaviour of the collaborators.  The reply to a call may depend on
    the number of calls made before it, so that a collaborator can answer the
    same call differently over time. *)
Record Env : Type := mk_env {
  fetch_page_reply : nat -> Z -> Z -> result PageData;
  clock_reply : nat -> result datetime;
  conn_reply : nat -> call -> option exn;
  rowcount_reply : nat -> Z;
  fetchone_reply : nat -> option (option datetime)
}.

(** The ranges asked of the provider, in order. *)
Definition fetches (tr : trace) : list (Z * Z) :=
  flat_map (fun x => match fst x with
                     | FetchPage s e => [(s, e)]
                     | _ => []
                     end) tr.

(** The statements executed without an error, in order. *)
Definition executed (tr : trace) : list statement :=
  flat_map (fun x => match x with
                     | (CursorExecute s, true) => [s]
                     | _ => []
                     end) tr.

(** How often [commit()] returned, and how often [rollback()] was called. *)
Definition commits (tr : trace) : nat :=
  List.length (filter (fun x => match x with
                                | (ConnCommit, true) => true
                                | _ => false
                                end) tr).

Definition rollbacks (tr : trace) : nat :=
  List.length (filter (fun x => match fst x with
                                | ConnRollback => true
                                | _ => false
                                end) tr).

(** What a transactional store makes of a trace: a statement that was
    executed is pending until the next [commit()] that returns, which makes
    it permanent, or the next [rollback()] that returns, which discards it.
    [tx_run c p tr] starts from the permanent statements [c] and the pending
    ones [p]. *)
Fixpoint tx_run (c p : list statement) (tr : trace)
  : list statement * list statement :=
  match tr with
  | [] => (c, p)
  | (CursorExecute s, true) :: tr' => tx_run c (p ++ [s]) tr'
  | (ConnCommit, true) :: tr' => tx_run (c ++ p) [] tr'
  | (ConnRollback, true) :: tr' => tx_run c [] tr'
  | _ :: tr' => tx_run c p tr'
  end.

(** The statements made permanent by a trace that starts a transaction. *)
Definition committed (tr : trace) : list statement := fst (tx_run [] [] tr).

(** An entry of the trace that is neither a call of the provider nor the
    end of a transaction: anything but [fetch_page], [commit()] and
    [rollback()]. *)
Definition quiet_entry (x : call * bool) : bool :=
  match fst x with
  | FetchPage _ _ | ConnCommit | ConnRollback => false
  | _ => true
  end.

Definition quiet (d : trace) : Prop :=
  Forall (fun x => quiet_entry x = true) d.

(** ** Computations that call the collaborators and may raise *)

Definition M (A : Type) : Type := trace -> result A * trace.

Definition ret {A : Type} (a : A) : M A := fun tr => (inr a, tr).

Definition raise {A : Type} (e : exn) : M A := fun tr => (inl e, tr).

Definition bind {A B : Type} (m : M A) (k : A -> M B) : M B :=
  fun tr =>
    match m tr with
    | (inr a, tr') => k a tr'
    | (inl e, tr') => (inl e, tr')
    end.

Notation "x <- m ;; k" := (bind m (fun x => k))
  (at level 61, m at next level, right associativity).
Notation "m ;;; k" := (bind m (fun _ => k))
  (at level 61, right associativity).

(** [try: m  except Exception as e: h e]. *)
Definition try_catch {A : Type} (m : M A) (h : exn -> M A) : M A :=
  fun tr =>
    match m tr with
    | (inr a, tr') => (inr a, tr')
    | (inl e, tr') => h e tr'
    end.

(** [try: m  finally: f]: [f] runs either way, and an exception of [f]
    replaces the outcome of [m]. *)
Definition finally_ {A : Type} (m : M A) (f : M unit) : M A :=
  fun tr =>
    match m tr with
    | (r, tr') =>
        match f tr' with
        | (inr _, tr'') => (r, tr'')
        | (inl e, tr'') => (inl e, tr'')
        end
    end.

Definition returned {A : Type} (r : result A) : bool :=
  match r with inr _ => true | inl _ => false end.

(** One call: it is put on record and the collaborator's reply is its
    outcome. *)
Definition perform {A : Type} (c : call) (reply : nat -> result A) : M A :=
  fun tr =>
    let r := reply (List.length tr) in (r, tr ++ [(c, returned r)]).

(** [post m tr Q]: run from the trace [tr], [m] ends in an outcome and a
    trace that satisfy [Q]. *)
Definition post {A : Type} (m : M A) (tr : trace)
    (Q : result A -> trace -> Prop) : Prop :=
  Q (fst (m tr)) (snd (m tr)).

(** [runs m tr Q]: run from [tr], [m] adds the calls [d] to the trace and
    ends in an outcome [r] with [Q r d]. *)
Definition runs {A : Type} (m : M A) (tr : trace)
    (Q : result A -> trace -> Prop) : Prop :=
  post m tr (fun r tr' => exists d, tr' = tr ++ d /\ Q r d).

Section Collaborators.

Variable E : Env.

(** [provider.fetch_page(start, end)]. *)
Definition fetch_page (start end_ : Z) : M PageData :=
  perform (FetchPage start end_) (fun n => fetch_page_reply E n start end_).

(** [clock()]. *)
Definition clock : M datetime := perform ClockNow (clock_reply E).

(** A call on the connection or on a cursor. *)
Definition conn_call (c : call) : M unit :=
  perform c (fun n =>
    match conn_reply E n c with Some e => inl e | None => inr tt end).

(** [cursor.rowcount], read after a statement. *)
Definition cursor_rowcount : M Z :=
  fun tr => (inr (rowcount_reply E (List.length tr)), tr).

(** [cursor.fetchone()]: [None] when there is no row, else the one column of
    the row, which may be NULL. *)
Definition cursor_fetchone : M (option (option datetime)) :=
  perform CursorFetchone (fun n =>
    match conn_reply E n CursorFetchone with
    | Some e => inl e
    | None => inr (fetchone_reply E n)
    end).

(* ===================================================================== *)
(** * ingestion/pipeline/call_log.py *)
(* ===================================================================== *)

Definition insert_call_log (snapshot_id : string) (page_start page_end : Z)
    (called_at : datetime) (status : string) : M unit :=
  let call_date := date_of called_at in
  conn_call ConnCursor ;;;
  finally_
    (conn_call
       (CursorExecute
          (InsertCallLog call_date snapshot_id page_start page_end
                         called_at status)))
    (conn_call CursorClose).

(* ===================================================================== *)
(** * ingestion/pipeline/raw_ingest.py: ingest_rows_page *)
(* ===================================================================== *)

Record IngestResult : Type := mk_ingest {
  ir_attempted_rows : Z;
  ir_inserted_rows : Z;
  ir_skipped_duplicates : Z
}.

(** The list [insert_rows] built from the rows of a page: for each row the
    page coordinates, [json.dumps(row, ensure_ascii=False)] and the payload
    hash. *)
Definition insert_values (snapshot_id : string) (collected_at : datetime)
    (page_start page_end : Z) (rows : list dict) : list RawValues :=
  map (fun row =>
         mk_raw_values snapshot_id collected_at page_start page_end
           (json_dumps row ", " ": ") (compute_payload_hash row))
      rows.

Definition ingest_rows_page (snapshot_id : string) (collected_at : datetime)
    (page_start page_end : Z) (rows : list dict) : M IngestResult :=
  let insert_rows :=
    insert_values snapshot_id collected_at page_start page_end rows in
  match insert_rows with
  | [] => ret (mk_ingest 0 0 0)
  | _ :: _ =>
      conn_call ConnCursor ;;;
      let attempted_rows := Z.of_nat (List.length insert_rows) in
      counts <-
        finally_
          (try_catch
             (conn_call (CursorExecute (InsertRaw insert_rows)) ;;;
              inserted_rows <- cursor_rowcount ;;
              let skipped_duplicates := attempted_rows - inserted_rows in
              ret (inserted_rows, skipped_duplicates))
             (fun e =>
                raise (RuntimeError
                         ("Raw 데이터 적재 실패: " ++ str_exn e)%string)))
          (conn_call CursorClose) ;;
      ret (mk_ingest attempted_rows (fst counts) (snd counts))
  end.

(** The statements of a page that goes through: its ledger entry and, when
    the page has rows, their bulk insert. *)
Definition page_statements (snapshot_id : string) (collected_at : datetime)
    (page_start page_end : Z) (called_at : datetime) (rows : list dict)
  : list statement :=
  InsertCallLog (date_of called_at) snapshot_id page_start page_end
                called_at "success"
  :: match rows with
     | [] => []
     | _ :: _ =>
         [InsertRaw (insert_values snapshot_id collected_at page_start
                                   page_end rows)]
     end.

(* ===================================================================== *)
(** * ingestion/runner/snapshot_runner.py *)
(* ===================================================================== *)

(** An entry of [pages_result]. *)
Record PageResult : Type := mk_page_result {
  p_start : Z;
  p_end : Z;
  p_status : string;
  p_attempted_rows : Z;
  p_inserted_rows : Z;
  p_skipped_duplicates : Z;
  p_error : option string
}.

(** The dict [run_snapshot_once] returns. *)
Record SnapshotResult : Type := mk_snapshot_result {
  r_snapshot_id : string;
  r_ranges : list (Z * Z);
  r_pages : list PageResult;
  r_attempted_total : Z;
  r_inserted_total : Z;
  r_duplicates_total : Z;
  r_errors_total : Z;
  r_status : string;
  r_total_count : option Z;
  r_decided_page_count : option Z
}.

(** The handler of a failed page (lines 121-150 and 233-252): a best-effort
    ledger entry with status ["error"], whose own failure is passed over,
    then [rollback()], which is not guarded. *)
Definition log_error_and_rollback (snapshot_id : string)
    (page_start page_end : Z) : M unit :=
  try_catch
    (called_at <- clock ;;
     insert_call_log snapshot_id page_start page_end called_at "error")
    (fun _ => ret tt) ;;;
  conn_call ConnRollback.

(** Lines 69-150: the first page, called alone when no ranges are given.
    Returns the page's entry, [total_count] and [decided_page_count]. *)
Definition probe_first_page (snapshot_id : string)
    (snapshot_collected_at : datetime)
  : M (PageResult * option Z * Z) :=
  let first_page_start := 0 in
  let first_page_end := 999 in
  try_catch
    (page_data <- fetch_page first_page_start first_page_end ;;
     let total_count := pd_total_count page_data in
     let rows := pd_rows page_data in
     called_at <- clock ;;
     insert_call_log snapshot_id first_page_start first_page_end
                     called_at "success" ;;;
     ingest_result <-
       ingest_rows_page snapshot_id snapshot_collected_at
                        first_page_start first_page_end rows ;;
     conn_call ConnCommit ;;;
     let page_result :=
       {| p_start := first_page_start;
          p_end := first_page_end;
          p_status := "ok";
          p_attempted_rows := Z.of_nat (List.length rows);
          p_inserted_rows := ir_inserted_rows ingest_result;
          p_skipped_duplicates := ir_skipped_duplicates ingest_result;
          p_error := None |} in
     let decided_page_count :=
       match total_count with
       | Some t => if 3000 <? t then 4 else 3
       | None => 3
       end in
     ret (page_result, total_count, decided_page_count))
    (fun e =>
       log_error_and_rollback snapshot_id first_page_start first_page_end ;;;
       let page_result :=
         {| p_start := first_page_start;
            p_end := first_page_end;
            p_status := "error";
            p_attempted_rows := 0;
            p_inserted_rows := 0;
            p_skipped_duplicates := 0;
            p_error := Some (str_exn e) |} in
       ret (page_result, None, 3)).

(** Lines 233-252 on the loop's [page_result]. *)
Definition fail_page (snapshot_id : string) (page_result : PageResult)
    (e : exn) : M PageResult :=
  log_error_and_rollback snapshot_id (p_start page_result)
                         (p_end page_result) ;;;
  ret {| p_start := p_start page_result;
         p_end := p_end page_result;
         p_status := "error";
         p_attempted_rows := p_attempted_rows page_result;
         p_inserted_rows := p_inserted_rows page_result;
         p_skipped_duplicates := p_skipped_duplicates page_result;
         p_error := Some (str_exn e) |}.

(** Lines 180-266: the body of the loop for one range.  The [try] block is
    taken in two steps around the assignments to [page_result] of lines
    221-224, which cannot raise: an exception before them finds the
    counters of [page_result] at 0, an exception of [commit()] after them
    finds them set.  The handler is the same for both. *)
Definition run_page (snapshot_id : string) (snapshot_collected_at : datetime)
    (range : Z * Z) : M PageResult :=
  let '(start, end_) := range in
  let page_result :=
    {| p_start := start; p_end := end_; p_status := "ok";
       p_attempted_rows := 0; p_inserted_rows := 0;
       p_skipped_duplicates := 0; p_error := None |} in
  fetched <-
    try_catch
      (page_data <- fetch_page start end_ ;;
       let rows := pd_rows page_data in
       let attempted_rows := Z.of_nat (List.length rows) in
       called_at <- clock ;;
       insert_call_log snapshot_id start end_ called_at "success" ;;;
       ingest_result <-
         ingest_rows_page snapshot_id snapshot_collected_at
                          start end_ rows ;;
       ret (inr (attempted_rows, ingest_result)))
      (fun e => ret (inl e)) ;;
  match fetched with
  | inl e => fail_page snapshot_id page_result e
  | inr (attempted_rows, ingest_result) =>
      let page_result :=
        {| p_start := start; p_end := end_; p_status := "ok";
           p_attempted_rows := attempted_rows;
           p_inserted_rows := ir_inserted_rows ingest_result;
           p_skipped_duplicates := ir_skipped_duplicates ingest_result;
           p_error := None |} in
      try_catch
        (conn_call ConnCommit ;;; ret page_result)
        (fun e => fail_page snapshot_id page_result e)
  end.

(** The loop over [remaining_ranges], appending to [pages_result]. *)
Fixpoint run_pages (snapshot_id : string) (snapshot_collected_at : datetime)
    (remaining_ranges : list (Z * Z)) (pages_result : list PageResult)
  : M (list PageResult) :=
  match remaining_ranges with
  | [] => ret pages_result
  | range :: rest =>
      page_result <- run_page snapshot_id snapshot_collected_at range ;;
      run_pages snapshot_id snapshot_collected_at rest
                (pages_result ++ [page_result])
  end.

(** [sum(f(p) for p in pages_result)]. *)
Definition sum_of (f : PageResult -> Z) (pages_result : list PageResult) : Z :=
  fold_left (fun acc p => acc + f p) pages_result 0.

(** Logging apart, which has no part in the result. *)
Definition run_snapshot_once (snapshot_id : string)
    (call_ranges : option (list (Z * Z))) : M SnapshotResult :=
  snapshot_collected_at <- clock ;;
  start <-
    match call_ranges with
    | None =>
        probe <- probe_first_page snapshot_id snapshot_collected_at ;;
        let '(page_result, total_count, decided_page_count) := probe in
        let call_ranges :=
          if decided_page_count =? 4
          then [(1000, 1999); (2000, 2999); (3000, 3999)]
          else [(1000, 1999); (2000, 2999)] in
        ret ([page_result], call_ranges, total_count,
             Some decided_page_count)
    | Some call_ranges => ret ([], call_ranges, None, None)
    end ;;
  let '(pages_result, call_ranges, total_count, decided_page_count) :=
    start in
  let remaining_ranges := call_ranges in
  pages_result <-
    run_pages snapshot_id snapshot_collected_at remaining_ranges
              pages_result ;;
  let attempted_total := sum_of p_attempted_rows pages_result in
  let inserted_total := sum_of p_inserted_rows pages_result in
  let duplicates_total := sum_of p_skipped_duplicates pages_result in
  let errors_total :=
    sum_of (fun p => if String.eqb (p_status p) "error" then 1 else 0)
           pages_result in
  let status :=
    if errors_total =? 0 then "ok"
    else if errors_total =? Z.of_nat (List.length pages_result) then "error"
    else "partial" in
  ret {| r_snapshot_id := snapshot_id;
         r_ranges := call_ranges;
         r_pages := pages_result;
         r_attempted_total := attempted_total;
         r_inserted_total := inserted_total;
         r_duplicates_total := duplicates_total;
         r_errors_total := errors_total;
         r_status := status;
         r_total_count := total_count;
         r_decided_page_count := decided_page_count |}.

(* ===================================================================== *)
(** * ingestion/orchestrator.py *)
(* ===================================================================== *)

Definition get_last_snapshot_at : M (option datetime) :=
  conn_call ConnCursor ;;;
  finally_
    (conn_call (CursorExecute SelectLastSnapshotAt) ;;;
     result <- cursor_fetchone ;;
     match result with
     | Some (Some created_at) => ret (Some created_at)
     | _ => ret None
     end)
    (conn_call CursorClose).

(** The dict [run_orchestrator_once] returns.  [elapsed_seconds] is kept as
    the microseconds of the timedelta it is computed from. *)
Record OrchestratorResult : Type := mk_orchestrator_result {
  o_executed : bool;
  o_reason : string;
  o_snapshot_id : option string;
  o_last_snapshot_at : option datetime;
  o_interval_seconds : option Z;
  o_elapsed_us : option Z;
  o_total_count : option Z;
  o_decided_page_count : option Z
}.

(** Lines 101-112: the last snapshot's instant in the zone of [now].  A
    naive value, as MySQL hands it out, is taken to be in Asia/Seoul. *)
Definition align_last_snapshot_at (now last_snapshot_at : datetime)
  : datetime :=
  let last_snapshot_at :=
    match tzinfo last_snapshot_at with
    | None => localize seoul_tz last_snapshot_at
    | Some _ => last_snapshot_at
    end in
  match tzinfo now, tzinfo last_snapshot_at with
  | Some tz, Some tz' =>
      if tz =? tz' then last_snapshot_at else astimezone last_snapshot_at tz
  | _, _ => last_snapshot_at
  end.

(** [elapsed_seconds < interval_seconds] compares the float
    [elapsed_us / 10**6] with an integer; rounding to the nearest float is
    monotone and leaves integers of this size exact, so the comparison is
    the one of the microseconds. *)
Definition run_orchestrator_once (now : datetime)
    (call_ranges : option (list (Z * Z))) (used_calls_today : Z)
  : M OrchestratorResult :=
  match decide_collection now with
  | inl e => raise e
  | inr time_policy =>
    if negb (should_collect time_policy) then
      ret {| o_executed := false; o_reason := "time_policy_blocked";
             o_snapshot_id := None; o_last_snapshot_at := None;
             o_interval_seconds := None; o_elapsed_us := None;
             o_total_count := None; o_decided_page_count := None |}
    else
      let interval_seconds := interval_seconds time_policy in
      last_snapshot_at <- get_last_snapshot_at ;;
      let last_snapshot_at :=
        option_map (align_last_snapshot_at now) last_snapshot_at in
      let elapsed_us :=
        option_map (fun l => datetime_sub now l) last_snapshot_at in
      if match elapsed_us with
         | Some us => us <? interval_seconds * US_PER_SECOND
         | None => false
         end
      then
        ret {| o_executed := false; o_reason := "interval_not_elapsed";
               o_snapshot_id := None; o_last_snapshot_at := last_snapshot_at;
               o_interval_seconds := Some interval_seconds;
               o_elapsed_us := elapsed_us;
               o_total_count := None; o_decided_page_count := None |}
      else
        let budget :=
          check_budget (date_of now) used_calls_today 4 None in
        if negb (b_should_collect budget) then
          ret {| o_executed := false; o_reason := "budget_blocked";
                 o_snapshot_id := None;
                 o_last_snapshot_at := last_snapshot_at;
                 o_interval_seconds := Some interval_seconds;
                 o_elapsed_us := elapsed_us;
                 o_total_count := None; o_decided_page_count := None |}
        else
          let snapshot_id := strftime_snapshot now in
          snapshot_result <- run_snapshot_once snapshot_id call_ranges ;;
          ret {| o_executed := true; o_reason := "executed";
                 o_snapshot_id := Some snapshot_id;
                 o_last_snapshot_at := last_snapshot_at;
                 o_interval_seconds := Some interval_seconds;
                 o_elapsed_us := elapsed_us;
                 o_total_count := r_total_count snapshot_result;
                 o_decided_page_count :=
                   r_decided_page_count snapshot_result |}
  end.

End Collaborators.

(** ** What a page of the runner amounts to *)

(** The page count decided from the first page's [total_count]
    (lines 114-119). *)
Definition decide_page_count (total_count : option Z) : Z :=
  match total_count with
  | Some t => if 3000 <? t then 4 else 3
  | None => 3
  end.

(** The entries of the breakdown with a given status, and the range of an
    entry. *)
Definition with_status (status : string) (prs : list PageResult)
  : list PageResult :=
  filter (fun pr => String.eqb (p_status pr) status) prs.

Definition range_of (pr : PageResult) : Z * Z := (p_start pr, p_end pr).

(** The ranges of the ledger entries among some statements, and their
    statuses. *)
Definition ledger_ranges (l : list statement) : list (Z * Z) :=
  flat_map (fun st => match st with
                      | InsertCallLog _ _ s e _ _ => [(s, e)]
                      | _ => []
                      end) l.

Definition ledger_statuses (l : list statement) : list string :=
  flat_map (fun st => match st with
                      | InsertCallLog _ _ _ _ _ status => [status]
                      | _ => []
                      end) l.

Section PageOutcomes.

Variable E : Env.

(** The page [(s, e)], run from the trace [tr], went through: the provider
    answered, the ledger entry and the rows were written and committed.
    [pr] is its entry of the breakdown and [d] the calls it made. *)
Definition page_went_through (snapshot_id : string)
    (collected_at : datetime) (s e : Z) (tr : trace) (pr : PageResult)
    (d : trace) : Prop :=
  exists pd called_at inserted d0,
    fetch_page_reply E (List.length tr) s e = inr pd /\
    clock_reply E (S (List.length tr)) = inr called_at /\
    quiet d0 /\
    executed d0
    = page_statements snapshot_id collected_at s e called_at (pd_rows pd) /\
    d = (FetchPage s e, true) :: d0 ++ [(ConnCommit, true)] /\
    pr = {| p_start := s; p_end := e; p_status := "ok";
            p_attempted_rows := Z.of_nat (List.length (pd_rows pd));
            p_inserted_rows := inserted;
            p_skipped_duplicates :=
              Z.of_nat (List.length (pd_rows pd)) - inserted;
            p_error := None |}.

(** No [rollback()] raises: the connection stays up. *)
Definition rollback_returns : Prop :=
  forall n, conn_reply E n ConnRollback = None.

(** Every [rollback()] raises [e1]. *)
Definition rollback_raises (e1 : exn) : Prop :=
  forall n, conn_reply E n ConnRollback = Some e1.

(** The page failed with the exception [exc].  It made the call of the
    provider, calls [d0] up to the failure, a [commit()] that raised when
    that was the failure ([cm]), the calls [d1] of the handler for a ledger
    entry, and one [rollback()].  When the rollback returns, so does the
    page, with an entry of status ["error"]; when it raises, its exception
    is the outcome of the page.  After a [commit()] that raised, a page of
    the loop keeps the counters of its rows ([keeps_counts]); the first page
    of a dynamic run does not. *)
Definition page_failed (keeps_counts : bool) (s e : Z) (tr : trace)
    (r : result PageResult) (d : trace) : Prop :=
  exists b d0 cm d1 rb exc,
    d = (FetchPage s e, b) :: d0 ++ cm ++ d1 ++ [(ConnRollback, rb)] /\
    quiet d0 /\ quiet d1 /\
    (cm = [] \/ cm = [(ConnCommit, false)]) /\
    returned r = rb /\
    (rollback_returns -> rb = true) /\
    (forall e1, rollback_raises e1 -> r = inl e1) /\
    (forall e0, fetch_page_reply E (List.length tr) s e = inl e0 ->
                exc = e0 /\ b = false /\ d0 = [] /\ cm = []) /\
    forall pr, r = inr pr ->
      p_start pr = s /\ p_end pr = e /\ p_status pr = "error" /\
      p_error pr = Some (str_exn exc) /\
      (cm = [] \/ keeps_counts = false ->
       p_attempted_rows pr = 0 /\ p_inserted_rows pr = 0 /\
       p_skipped_duplicates pr = 0) /\
      (cm <> [] -> keeps_counts = true ->
       exists pd,
         fetch_page_reply E (List.length tr) s e = inr pd /\
         p_attempted_rows pr = Z.of_nat (List.length (pd_rows pd)) /\
         p_skipped_duplicates pr
         = p_attempted_rows pr - p_inserted_rows pr).

(** The page ran to its end, with the entry [pr] and the calls [d]. *)
Definition page_done (keeps_counts : bool) (snapshot_id : string)
    (collected_at : datetime) (s e : Z) (tr : trace) (pr : PageResult)
    (d : trace) : Prop :=
  page_went_through snapshot_id collected_at s e tr pr d \/
  page_failed keeps_counts s e tr (inr pr) d.

(** The pages of [ranges], run one after the other from the trace [tr], gave
    the entries [prs] and made the calls [d].  [in_loop] tells whether the
    first of them is a page of the loop; the others are. *)
Inductive pages_run (snapshot_id : string) (collected_at : datetime)
  : bool -> trace -> list (Z * Z) -> list PageResult -> trace -> Prop :=
| pages_run_nil (in_loop : bool) (tr : trace) :
    pages_run snapshot_id collected_at in_loop tr [] [] []
| pages_run_cons (in_loop : bool) (tr : trace) (s e : Z)
    (rest : list (Z * Z)) (pr : PageResult) (d : trace)
    (prs : list PageResult) (ds : trace) :
    page_done in_loop snapshot_id collected_at s e tr pr d ->
    pages_run snapshot_id collected_at true (tr ++ d) rest prs ds ->
    pages_run snapshot_id collected_at in_loop tr ((s, e) :: rest)
              (pr :: prs) (d ++ ds).

End PageOutcomes.

(** ** A scripted environment: the scenario of the runner's test *)

(** The provider answers the ranges that start at 0 and at 2000 and raises
    on every other one; the connection and the clock never raise; every
    bulk insert reports one inserted row. *)
Definition scenario_env : Env :=
  {| fetch_page_reply := fun _ s _ =>
       if s =? 0 then
         inr (mk_page_data "INFO-000" "OK" None
                           [[("rowNum", "1")]; [("rowNum", "2")]])
       else if s =? 2000 then
         inr (mk_page_data "INFO-000" "OK" None [[("rowNum", "3")]])
       else inl (Exception "Network error");
     clock_reply := fun _ => inr (kst 2026 1 4 12 0 0 0);
     conn_reply := fun _ _ => None;
     rowcount_reply := fun _ => 1;
     fetchone_reply := fun _ => None |}.

(** The same with a connection on which every [commit()] raises. *)
Definition no_commit_env : Env :=
  {| fetch_page_reply := fetch_page_reply scenario_env;
     clock_reply := clock_reply scenario_env;
     conn_reply := fun _ c =>
       match c with
       | ConnCommit => Some (Exception "commit failed")
       | _ => None
       end;
     rowcount_reply := rowcount_reply scenario_env;
     fetchone_reply := fetchone_reply scenario_env |}.

(** The same with a connection on which every [rollback()] raises. *)
Definition no_rollback_env : Env :=
  {| fetch_page_reply := fetch_page_reply scenario_env;
     clock_reply := clock_reply scenario_env;
     conn_reply := fun _ c =>
       match c with
       | ConnRollback => Some (Exception "connection lost")
       | _ => None
       end;
     rowcount_reply := rowcount_reply scenario_env;
     fetchone_reply := fetchone_reply scenario_env |}.

(** The scenario with a connection on which every statement raises. *)
Definition no_execute_env : Env :=
  {| fetch_page_reply := fetch_page_reply scenario_env;
     clock_reply := clock_reply scenario_env;
     conn_reply := fun _ c =>
       match c with
       | CursorExecute _ => Some (Exception "Deadlock found")
       | _ => None
       end;
     rowcount_reply := rowcount_reply scenario_env;
     fetchone_reply := fetchone_reply scenario_env |}.


(* ===================================================================== *)
(** * ingestion/providers/seoul_subway.py: fetch_fixed_pages *)
(* ===================================================================== *)

(** [str(n)] for a length. *)
Definition str_nat (n : nat) : string :=
  NilEmpty.string_of_uint (Nat.to_uint n).

Module seoul_subway.

(** The dataclass [PageResult] of the provider. *)
Record PageResult : Type := mk_page_result {
  start : Z;
  end_ : Z;
  total_count : option Z;
  row_count : Z;
  rows : list dict
}.

(** The dataclass [ProviderResult].  The set [first_row_keys] is held as the
    list of the keys of the row, which are distinct. *)
Record ProviderResult : Type := mk_provider_result {
  pages : list PageResult;
  all_rows : list dict;
  first_row_keys : option (list string)
}.


Section Provider.

Variable E : Env.



End Provider.

End seoul_subway.


(* ===================================================================== *)
(** * ingestion/pipeline/raw_ingest.py: ingest_provider_result *)
(* ===================================================================== *)

Section ProviderIngest.

Variable E : Env.

(** The list [insert_rows] built from the pages of a provider result. *)
Definition provider_insert_values (snapshot_id : string)
    (collected_at : datetime) (pages : list seoul_subway.PageResult)
  : list RawValues :=
  flat_map (fun page =>
              insert_values snapshot_id collected_at
                (seoul_subway.start page) (seoul_subway.end_ page)
                (seoul_subway.rows page))
           pages.

(** [collected_at] is read off the system clock at line 68; it is an
    argument here.  Unlike [ingest_rows_page], the function ends the
    transaction itself. *)
Definition ingest_provider_result (collected_at : datetime)
    (provider_result : seoul_subway.ProviderResult) (snapshot_id : string)
  : M IngestResult :=
  let insert_rows :=
    provider_insert_values snapshot_id collected_at
                           (seoul_subway.pages provider_result) in
  match insert_rows with
  | [] => ret (mk_ingest 0 0 0)
  | _ :: _ =>
      conn_call E ConnCursor ;;;
      let attempted_rows := Z.of_nat (List.length insert_rows) in
      counts <-
        finally_
          (try_catch
             (conn_call E (CursorExecute (InsertRaw insert_rows)) ;;;
              inserted_rows <- cursor_rowcount E ;;
              let skipped_duplicates := attempted_rows - inserted_rows in
              conn_call E ConnCommit ;;;
              ret (inserted_rows, skipped_duplicates))
             (fun e =>
                conn_call E ConnRollback ;;;
                raise (RuntimeError
                         ("Raw 데이터 적재 실패: " ++ str_exn e)%string)))
          (conn_call E CursorClose) ;;
      ret (mk_ingest attempted_rows (fst counts) (snd counts))
  end.

End ProviderIngest.

(* ===================================================================== *)
(** * ingestion/providers/seoul_subway.py: _parse_row_element *)
(* ===================================================================== *)

(** An [xml.etree.ElementTree.Element], as far as the code reads it: its
    tag, its text, which may be [None], and its children. *)
#[warnings="-register-all"]
Inductive Element : Type :=
| mk_element (tag : string) (text : option string)
    (children : list Element).

Definition elem_tag (e : Element) : string :=
  match e with mk_element tag _ _ => tag end.

Definition elem_text (e : Element) : option string :=
  match e with mk_element _ text _ => text end.

Definition elem_children (e : Element) : list Element :=
  match e with mk_element _ _ children => children end.

(** [key in row_dict]. *)
Definition dict_mem (key : string) (row_dict : dict) : bool :=
  existsb (fun kv => String.eqb (fst kv) key) row_dict.

(** [row_dict[key] = value]: the value of a key that is there is replaced
    where it stands, a new key goes to the end. *)
Fixpoint dict_set (row_dict : dict) (key value : string) : dict :=
  match row_dict with
  | [] => [(key, value)]
  | (k, v) :: row_dict' =>
      if String.eqb k key then (k, value) :: row_dict'
      else (k, v) :: dict_set row_dict' key value
  end.

(** A [for] loop whose body may fail. *)
Fixpoint for_each {A B : Type} (body : B -> A -> option B) (l : list A)
    (b : B) : option B :=
  match l with
  | [] => Some b
  | a :: l' =>
      match body b a with
      | Some b' => for_each body l' b'
      | None => None
      end
  end.

(** Lines 116-121: the first of [key__1], [key__2], ... that is not in
    [row_dict], looked for from [counter] on.  [fuel] bounds the number of
    keys tried; [None] is for a search that runs out of it. *)
Fixpoint next_free_key (fuel : nat) (key : string) (row_dict : dict)
    (counter : nat) : option string :=
  match fuel with
  | O => None
  | S fuel' =>
      let new_key := (key ++ "__" ++ str_nat counter)%string in
      if dict_mem new_key row_dict
      then next_free_key fuel' key row_dict (S counter)
      else Some new_key
  end.

Section ParseRow.

(** [str.strip], on which nothing here depends. *)
Variable strip : string -> string.

(** The text stored for a leaf element. *)
Definition leaf_text (child : Element) : string :=
  match elem_text child with
  | Some text => if String.eqb text "" then "" else strip text
  | None => ""
  end.

(** [row_dict] is threaded through the calls, as the code updates the one
    dict in place.  The search for a free key is given one more try than
    [row_dict] has keys. *)
Fixpoint _parse_row_element (elem : Element) (row_dict : dict)
    (prefix : string) {struct elem} : option dict :=
  match elem with
  | mk_element _ _ children =>
      for_each
        (fun row_dict child =>
           let key :=
             if String.eqb prefix "" then elem_tag child
             else (prefix ++ elem_tag child)%string in
           match elem_children child with
           | _ :: _ => _parse_row_element child row_dict (key ++ "_")
           | [] =>
               let text := leaf_text child in
               match
                 (if dict_mem key row_dict
                  then next_free_key (S (List.length row_dict)) key
                                     row_dict 1
                  else Some key)
               with
               | Some key => Some (dict_set row_dict key text)
               | None => None
               end
           end)
        children row_dict
  end.

(** The texts of the leaves below [elem], in document order. *)
Fixpoint leaf_texts (elem : Element) : list string :=
  match elem with
  | mk_element _ _ children =>
      flat_map (fun child =>
                  match elem_children child with
                  | _ :: _ => leaf_texts child
                  | [] => [leaf_text child]
                  end)
               children
  end.

End ParseRow.

(** What a call adds to [row_dict]: the outcome [r] is [row_dict] followed
    by new entries, whose values are [texts] and whose keys are distinct
    and not among the old ones. *)
Definition adds (row_dict : dict) (texts : list string)
    (r : option dict) : Prop :=
  exists new,
    r = Some (row_dict ++ new) /\
    map snd new = texts /\
    NoDup (map fst new) /\
    forall k, In k (map fst new) -> ~ In k (map fst row_dict).

(** Two rows of the provider's answer: a flat one, and one with a repeated
    tag and a nested element. *)
Definition flat_row : Element :=
  mk_element "row" None
    [mk_element "subwayId" (Some "1001") [];
     mk_element "statnNm" (Some "Seoul") [];
     mk_element "rowNum" (Some "0") []].

Definition nested_row : Element :=
  mk_element "row" None
    [mk_element "a" (Some "1") [];
     mk_element "a" (Some "2") [];
     mk_element "b" None
       [mk_element "c" (Some "3") []; mk_element "c" None []];
     mk_element "a" (Some "4") []].
(* ===================================================================== *)
(** * Theorems *)
(* ===================================================================== *)


(** ** BudgetGuard *)

Section Budget.

Variable today : date.

Lemma check_budget_remaining (used required : Z) (limit : option Z) :
  remaining_calls (check_budget today used required limit)
  = Z.max 0 (match limit with Some l => l | None => 1000 end - used).
Proof.
  unfold check_budget.
  destruct limit as [l|];
    match goal with |- context [?x <? 0] => destruct (Z.ltb_spec x 0) end;
    match goal with |- context [required <=? ?x] =>
      destruct (Z.leb_spec required x) end; cbn [remaining_calls]; lia.
Qed.

Lemma check_budget_should_collect (used required : Z) (limit : option Z) :
  b_should_collect (check_budget today used required limit)
  = (required <=? remaining_calls (check_budget today used required limit)).
Proof.
  unfold check_budget.
  destruct limit as [l|];
    match goal with |- context [?x <? 0] => destruct (Z.ltb_spec x 0) end;
    match goal with |- context [required <=? ?x] =>
      destruct (Z.leb_spec required x) end;
    cbn [remaining_calls b_should_collect]; symmetry;
    first [apply Z.leb_le | apply Z.leb_gt]; lia.
Qed.

(** C6.  For non-negative [used_calls_today] and [required_calls] and any
    [daily_limit] (1000 when left out), [check_budget] returns
    [remaining_calls = max(0, daily_limit - used_calls_today)], which is
    never negative; it lets the run proceed exactly when
    [remaining_calls >= required_calls]; and [required_calls = 0] always
    passes, whatever has been used. *)
Theorem check_budget_spec (used required : Z) (limit : option Z) :
  0 <= used -> 0 <= required ->
  let daily_limit := match limit with Some l => l | None => 1000 end in
  let b := check_budget today used required limit in
  remaining_calls b = Z.max 0 (daily_limit - used) /\
  0 <= remaining_calls b /\
  (b_should_collect b = true <-> required <= remaining_calls b) /\
  (required = 0 -> b_should_collect b = true).
Proof.
  intros Hu Hr daily_limit b. subst b daily_limit.
  rewrite check_budget_should_collect, check_budget_remaining.
  split; [reflexivity | split; [lia | split]].
  - apply Z.leb_le.
  - intros ->. apply Z.leb_le. lia.
Qed.

(** C9, as the code has it.  The decision's [reason] is ["budget_ok"] when
    the run may proceed and ["budget_exceeded"] when it may not. *)
Theorem check_budget_reason (used required : Z) (limit : option Z) :
  let b := check_budget today used required limit in
  b_reason b = if b_should_collect b then "budget_ok" else "budget_exceeded".
Proof.
  unfold check_budget.
  destruct (required <=? _); reflexivity.
Qed.

End Budget.

(** The example of the spec: 998 calls used, 4 required, limit 1000. *)
Lemma check_budget_spec_witness :
  let b := check_budget (mk_date 2026 1 4) 998 4 None in
  remaining_calls b = Z.max 0 (1000 - 998) /\
  0 <= remaining_calls b /\
  (b_should_collect b = true <-> 4 <= remaining_calls b) /\
  (4 = 0 -> b_should_collect b = true).
Proof.
  apply (check_budget_spec (mk_date 2026 1 4) 998 4 None); lia.
Defined.

(** C9, as stated, fails: with nothing used and nothing required the run may
    proceed, and the reason is not the string ["ok"]. *)
Lemma check_budget_reason_not_ok :
  let b := check_budget (mk_date 2026 1 4) 0 0 None in
  ~ ((b_should_collect b = true -> b_reason b = "ok") /\
     (b_should_collect b = false -> b_reason b = "exceeded")).
Proof.
  intros b [H _]. specialize (H eq_refl). discriminate H.
Qed.

(** ** TimePolicy *)

Section TimePolicy.

Lemma of_wall_us_time (us : Z) (tz : option Z) :
  let d := of_wall_us us tz in
  let secs := (us mod US_PER_DAY) / US_PER_SECOND in
  hour d = secs / 3600 /\ minute d = (secs mod 3600) / 60 /\
  second d = secs mod 60 /\
  microsecond d = (us mod US_PER_DAY) mod US_PER_SECOND /\
  tzinfo d = tz.
Proof.
  unfold of_wall_us. destruct (ord2ymd _) as [[y m] dd]. cbn.
  repeat split.
Qed.


Lemma of_wall_us_time_seconds (us : Z) (tz : option Z) :
  0 <= time_seconds (of_wall_us us tz) < 86400.
Proof.
  unfold time_seconds.
  destruct (of_wall_us_time us tz) as (-> & -> & -> & _ & _).
  set (secs := (us mod US_PER_DAY) / US_PER_SECOND).
  assert (Hs : 0 <= secs < 86400).
  { unfold secs, US_PER_DAY, US_PER_SECOND.
    pose proof (Z.mod_pos_bound us (86400 * 1000000) eq_refl).
    split.
    - apply Z.div_pos; lia.
    - apply Z.div_lt_upper_bound; lia. }
  pose proof (Z.div_mod secs 3600 ltac:(lia)).
  pose proof (Z.mod_pos_bound secs 3600 eq_refl).
  pose proof (Z.div_mod (secs mod 3600) 60 ltac:(lia)).
  pose proof (Z.mod_pos_bound (secs mod 3600) 60 eq_refl).
  assert (secs mod 60 = (secs mod 3600) mod 60).
  { symmetry. apply Z.mod_mod_divide. exists 60. reflexivity. }
  lia.
Qed.








End TimePolicy.


Example decide_collection_0930_00_5 :
  decide_collection (kst 2026 1 4 9 30 0 500000)
  = inr (mk_policy true 120 morning).
Proof. vm_compute. reflexivity. Qed.

Example decide_collection_0500_00_5 :
  decide_collection (kst 2026 1 4 5 0 0 500000)
  = inr (mk_policy false 0 night).
Proof. vm_compute. reflexivity. Qed.

Example decide_collection_0200 :
  decide_collection (kst 2026 1 4 2 0 0 0)
  = inr (mk_policy false (5 * 3600 + 1 - 2 * 3600) night).
Proof. vm_compute. reflexivity. Qed.


(** ** The content hash *)

Example sha256_empty :
  hexdigest (sha256 (encode_utf8 ""))
  = "e3b0c44298fc1c149afbf4c8996fb92427ae41e4649b934ca495991b7852b855".
Proof. vm_compute. reflexivity. Qed.

Example sha256_abc :
  hexdigest (sha256 (encode_utf8 "abc"))
  = "ba7816bf8f01cfea414140de5dae2223b00361a396177a9cb410ff61f20015ad".
Proof. vm_compute. reflexivity. Qed.

Example sha256_two_blocks :
  hexdigest (sha256 (repeat 97 119))
  = "31eba51c313a5c08226adf18d4a359cfdfd8d2e816b13f4af952f7ea6584dcfb".
Proof. vm_compute. reflexivity. Qed.

Example sha256_56 :
  hexdigest (sha256 (repeat 97 56))
  = "b35439a4ac6f0948b6d6f9e3c6af0f5f590ce20f1bde7090ef7970686ec6738a".
Proof. vm_compute. reflexivity. Qed.

Example compute_payload_hash_empty :
  compute_payload_hash []
  = "44136fa355b3678a1146ad16f7e8649e94fb4fc21fe77e8310c060f61caaff8a".
Proof. vm_compute. reflexivity. Qed.

Example canonical_json_escapes :
  canonical_json
    [("b", String "x" (String "010" (String dquote (String backslash
        (String "001" (String "127" ""))))));
     ("a", "1")]
  = quoted ("{'a':'1','b':'x\n\'\\\u0001" ++ String "127" "'}").
Proof. vm_compute. reflexivity. Qed.

Example canonical_json_test_payload :
  canonical_json [("subwayId", "1001"); ("statnNm", "서울역")]
  = quoted "{'statnNm':'서울역','subwayId':'1001'}".
Proof. vm_compute. reflexivity. Qed.

Example compute_payload_hash_test_payload :
  compute_payload_hash [("subwayId", "1001"); ("statnNm", "서울역")]
  = "c42638ff1700ba9319a5280f6c065ed71dbd6dffb76fd98ccd23c635b3cc44eb".
Proof. vm_compute. reflexivity. Qed.

Section Strings.

Lemma append_assoc_str (a b c : string) :
  ((a ++ b) ++ c = a ++ (b ++ c))%string.
Proof. induction a as [|x a IH]; cbn; [reflexivity | now rewrite IH]. Qed.

Lemma append_nil_r (a : string) : (a ++ "")%string = a.
Proof. induction a as [|x a IH]; cbn; [reflexivity | now rewrite IH]. Qed.




End Strings.

Section HexDigest.






End HexDigest.

(** *** The order on items and [sorted] *)

Section ItemOrder.

Lemma ascii_compare_refl (a : ascii) : Ascii.compare a a = Eq.
Proof. apply N.compare_refl. Qed.

Lemma ascii_compare_lt_trans (a b c : ascii) :
  Ascii.compare a b = Lt -> Ascii.compare b c = Lt -> Ascii.compare a c = Lt.
Proof.
  unfold Ascii.compare. rewrite !N.compare_lt_iff. apply N.lt_trans.
Qed.

Lemma str_compare_refl (s : string) : String.compare s s = Eq.
Proof.
  induction s as [|c s IH]; cbn; [reflexivity|].
  now rewrite ascii_compare_refl.
Qed.

Lemma str_compare_eq (s t : string) : String.compare s t = Eq <-> s = t.
Proof.
  split; [apply String.compare_eq_iff | intros ->; apply str_compare_refl].
Qed.

Lemma str_compare_lt_trans (s t u : string) :
  String.compare s t = Lt -> String.compare t u = Lt ->
  String.compare s u = Lt.
Proof.
  revert t u. induction s as [|a s IH]; intros [|b t] [|c u]; cbn;
    try congruence.
  destruct (Ascii.compare a b) eqn:Hab; try discriminate;
    destruct (Ascii.compare b c) eqn:Hbc; try discriminate; intros H1 H2.
  - apply Ascii.compare_eq_iff in Hab, Hbc. subst.
    rewrite ascii_compare_refl. eapply IH; eassumption.
  - apply Ascii.compare_eq_iff in Hab. subst. now rewrite Hbc.
  - apply Ascii.compare_eq_iff in Hbc. subst. now rewrite Hab.
  - now rewrite (ascii_compare_lt_trans a b c).
Qed.

Lemma str_compare_gt_lt (s t : string) :
  String.compare s t = Gt <-> String.compare t s = Lt.
Proof.
  rewrite (String.compare_antisym t s).
  destruct (String.compare s t); cbn; split; congruence.
Qed.

Lemma str_ltb_lt (s t : string) :
  String.ltb s t = true <-> String.compare s t = Lt.
Proof.
  unfold String.ltb. destruct (String.compare s t); split; congruence.
Qed.

Lemma item_ltb_irrefl (a : string * string) : item_ltb a a = false.
Proof.
  unfold item_ltb. rewrite str_compare_refl.
  unfold String.ltb. now rewrite str_compare_refl.
Qed.

Lemma item_ltb_trans (a b c : string * string) :
  item_ltb a b = true -> item_ltb b c = true -> item_ltb a c = true.
Proof.
  destruct a as [ka va], b as [kb vb], c as [kc vc]. unfold item_ltb. cbn.
  destruct (String.compare ka kb) eqn:Hab; try discriminate;
    destruct (String.compare kb kc) eqn:Hbc; try discriminate; intros H1 H2.
  - apply str_compare_eq in Hab, Hbc. subst. rewrite str_compare_refl.
    apply str_ltb_lt. apply str_ltb_lt in H1, H2.
    eapply str_compare_lt_trans; eassumption.
  - apply str_compare_eq in Hab. subst. now rewrite Hbc.
  - apply str_compare_eq in Hbc. subst. now rewrite Hab.
  - now rewrite (str_compare_lt_trans ka kb kc).
Qed.

Lemma item_ltb_trichotomy (a b : string * string) :
  item_ltb a b = false -> item_ltb b a = false -> a = b.
Proof.
  destruct a as [ka va], b as [kb vb]. unfold item_ltb. cbn.
  destruct (String.compare ka kb) eqn:Hab; try discriminate.
  - apply str_compare_eq in Hab. subst. rewrite str_compare_refl.
    unfold String.ltb.
    destruct (String.compare va vb) eqn:Hv; try discriminate.
    + apply str_compare_eq in Hv. now subst.
    + apply str_compare_gt_lt in Hv. rewrite Hv. discriminate.
  - apply str_compare_gt_lt in Hab. rewrite Hab. discriminate.
Qed.

Lemma item_ltb_asym (a b : string * string) :
  item_ltb a b = true -> item_ltb b a = false.
Proof.
  intros H. destruct (item_ltb b a) eqn:H'; [|reflexivity].
  pose proof (item_ltb_trans a b a H H') as Hc.
  rewrite item_ltb_irrefl in Hc. discriminate.
Qed.

(** [y <= a < x] gives [y < x]. *)
Lemma item_ltb_le_lt (y a x : string * string) :
  item_ltb a y = false -> item_ltb a x = true -> item_ltb y x = true.
Proof.
  intros Hay Hax. destruct (item_ltb y a) eqn:Hya.
  - eapply item_ltb_trans; eassumption.
  - now rewrite (item_ltb_trichotomy y a Hya Hay).
Qed.

Lemma insert_item_comm (x y : string * string) (l : dict) :
  insert_item x (insert_item y l) = insert_item y (insert_item x l).
Proof.
  induction l as [|a l IH]; cbn.
  - destruct (item_ltb y x) eqn:Hyx, (item_ltb x y) eqn:Hxy;
      try reflexivity.
    + rewrite (item_ltb_asym y x Hyx) in Hxy. discriminate.
    + now rewrite (item_ltb_trichotomy x y Hxy Hyx).
  - destruct (item_ltb a y) eqn:Hay, (item_ltb a x) eqn:Hax; cbn;
      rewrite ?Hay, ?Hax.
    + now rewrite IH.
    + rewrite (item_ltb_le_lt x a y Hax Hay). cbn. rewrite ?Hay.
      reflexivity.
    + rewrite (item_ltb_le_lt y a x Hay Hax). cbn. rewrite ?Hax.
      reflexivity.
    + destruct (item_ltb y x) eqn:Hyx, (item_ltb x y) eqn:Hxy; cbn;
        rewrite ?Hay, ?Hax; try reflexivity.
      * rewrite (item_ltb_asym y x Hyx) in Hxy. discriminate.
      * now rewrite (item_ltb_trichotomy x y Hxy Hyx).
Qed.

Lemma insert_item_perm (x : string * string) (l : dict) :
  Permutation (x :: l) (insert_item x l).
Proof.
  induction l as [|a l IH]; cbn; [reflexivity|].
  destruct (item_ltb a x); [|reflexivity].
  rewrite perm_swap. now apply perm_skip.
Qed.

Lemma sorted_perm (l : dict) : Permutation l (sorted l).
Proof.
  induction l as [|x l IH]; cbn; [constructor|].
  rewrite <- insert_item_perm. now apply perm_skip.
Qed.

(** The result of [sorted] depends on the items only, not on their order. *)
Lemma sorted_permutation_invariant (l1 l2 : dict) :
  Permutation l1 l2 -> sorted l1 = sorted l2.
Proof.
  induction 1 as [|x l l' _ IH|x y l|l l' l'' _ IH1 _ IH2]; cbn.
  - reflexivity.
  - now rewrite IH.
  - apply insert_item_comm.
  - congruence.
Qed.

(** The items come out in ascending order. *)
Lemma insert_item_sorted (x : string * string) (l : dict) :
  StronglySorted (fun a b => item_ltb b a = false) l ->
  StronglySorted (fun a b => item_ltb b a = false) (insert_item x l).
Proof.
  induction 1 as [|a l Hs IH Ha]; cbn.
  - repeat constructor.
  - destruct (item_ltb a x) eqn:Hax.
    + constructor; [assumption|].
      apply (Permutation_Forall (insert_item_perm x l)).
      constructor; [now apply item_ltb_asym | assumption].
    + constructor; [now constructor|].
      constructor; [assumption|].
      revert Ha. apply Forall_impl. intros b Hb.
      destruct (item_ltb b x) eqn:Hbx; [|reflexivity].
      destruct (item_ltb b a) eqn:Hba; [discriminate|].
      rewrite (item_ltb_le_lt a b x) in Hax; [discriminate|assumption..].
Qed.

Lemma sorted_sorted (l : dict) :
  StronglySorted (fun a b => item_ltb b a = false) (sorted l).
Proof.
  induction l as [|x l IH]; cbn; [constructor | now apply insert_item_sorted].
Qed.

End ItemOrder.

(** *** The canonical form determines the dict *)

Section CanonicalForm.

Lemma unescape_head_escape_char (c : ascii) (t : string) :
  unescape_head (escape_char c ++ t) = Some (c, t).
Proof. destruct c as [[] [] [] [] [] [] [] []]; reflexivity. Qed.

Lemma escape_char_prefix_inj (c1 c2 : ascii) (t1 t2 : string) :
  (escape_char c1 ++ t1 = escape_char c2 ++ t2)%string ->
  c1 = c2 /\ t1 = t2.
Proof.
  intros H. apply (f_equal unescape_head) in H.
  rewrite !unescape_head_escape_char in H. now injection H.
Qed.

Lemma escape_char_not_dquote (c : ascii) (t1 t2 : string) :
  String dquote t1 <> (escape_char c ++ t2)%string.
Proof.
  intros H. pose proof (f_equal unescape_head H) as H'.
  rewrite unescape_head_escape_char in H'. cbn in H'.
  injection H' as <- _. discriminate H.
Qed.

Lemma escape_inj (s1 s2 r1 r2 : string) :
  (escape s1 ++ String dquote r1 = escape s2 ++ String dquote r2)%string ->
  s1 = s2 /\ r1 = r2.
Proof.
  revert s2. induction s1 as [|a s1 IH]; intros [|b s2]; cbn [escape].
  - cbn. intros H. now injection H.
  - rewrite append_assoc_str. cbn [append].
    intros H. now apply escape_char_not_dquote in H.
  - rewrite append_assoc_str. cbn [append].
    intros H. symmetry in H. now apply escape_char_not_dquote in H.
  - rewrite !append_assoc_str. intros H.
    apply escape_char_prefix_inj in H as [-> H].
    apply IH in H as [-> ->]. now split.
Qed.

Lemma encode_basestring_inj (s1 s2 r1 r2 : string) :
  (encode_basestring s1 ++ r1 = encode_basestring s2 ++ r2)%string ->
  s1 = s2 /\ r1 = r2.
Proof.
  unfold encode_basestring. cbn [append]. rewrite !append_assoc_str.
  cbn [append]. intros H. injection H as H. now apply escape_inj.
Qed.

Lemma String_tail_inj (c : ascii) (s1 s2 : string) :
  String c s1 = String c s2 -> s1 = s2.
Proof. intros H. now injection H. Qed.

Local Opaque encode_basestring.

Lemma json_items_inj (d1 d2 : dict) (first : bool) :
  (json_items "," ":" first d1 ++ "}"
   = json_items "," ":" first d2 ++ "}")%string ->
  d1 = d2.
Proof.
  revert d2 first.
  induction d1 as [|[k1 v1] d1 IH]; intros [|[k2 v2] d2] first;
    cbn [json_items].
  - reflexivity.
  - destruct first; cbn; discriminate.
  - destruct first; cbn; discriminate.
  - intros H.
    assert (H' : (encode_basestring k1
                  ++ String ":" (encode_basestring v1
                       ++ (json_items "," ":" false d1 ++ "}"))
                  = encode_basestring k2
                  ++ String ":" (encode_basestring v2
                       ++ (json_items "," ":" false d2 ++ "}")))%string).
    { destruct first; rewrite ?append_assoc_str in H; cbn [append] in H;
        rewrite ?append_assoc_str in H; cbn [append] in H.
      - exact H.
      - exact (String_tail_inj _ _ _ H). }
    apply encode_basestring_inj in H' as [-> H'].
    apply String_tail_inj in H'.
    apply encode_basestring_inj in H' as [-> H'].
    now rewrite (IH d2 false H').
Qed.

Local Transparent encode_basestring.

Lemma json_dumps_inj (d1 d2 : dict) :
  json_dumps d1 "," ":" = json_dumps d2 "," ":" -> d1 = d2.
Proof.
  intros H. apply (json_items_inj d1 d2 true).
  assert (Hd : forall d, json_dumps d "," ":"
                         = String "{" (json_items "," ":" true d ++ "}")).
  { intros [|x d]; reflexivity. }
  rewrite !Hd in H. exact (String_tail_inj _ _ _ H).
Qed.

(** Two dicts with the same canonical form hold the same items. *)
Lemma canonical_json_inj (m1 m2 : dict) :
  canonical_json m1 = canonical_json m2 -> Permutation m1 m2.
Proof.
  unfold canonical_json. intros H%json_dumps_inj.
  rewrite (sorted_perm m1), H. symmetry. apply sorted_perm.
Qed.

Lemma encode_utf8_inj (s1 s2 : string) :
  encode_utf8 s1 = encode_utf8 s2 -> s1 = s2.
Proof.
  unfold encode_utf8. intros H.
  rewrite <- (string_of_list_ascii_of_string s1),
    <- (string_of_list_ascii_of_string s2).
  f_equal. revert H.
  generalize (list_ascii_of_string s1) (list_ascii_of_string s2).
  induction l as [|a l IH]; intros [|b l']; cbn; try discriminate;
    [reflexivity|].
  intros H. injection H as Hab Hl. f_equal; [|now apply IH].
  apply N2Z.inj in Hab.
  rewrite <- (ascii_N_embedding a), <- (ascii_N_embedding b). now f_equal.
Qed.

(** In a dict a key has one value. *)
Lemma dict_value_unique (m : dict) (k v1 v2 : string) :
  well_formed_dict m -> In (k, v1) m -> In (k, v2) m -> v1 = v2.
Proof.
  unfold well_formed_dict. induction m as [|[k' v'] m IH]; cbn;
    [contradiction|].
  intros Hnd [H1|H1] [H2|H2]; inversion Hnd as [|? ? Hk Hm]; subst.
  - congruence.
  - injection H1 as -> ->. exfalso. apply Hk.
    change k with (fst (k, v2)). now apply in_map.
  - injection H2 as -> ->. exfalso. apply Hk.
    change k with (fst (k, v1)). now apply in_map.
  - now apply IH.
Qed.

(** Dicts that differ in the value of a key have different canonical forms,
    and different bytes go into the digest. *)
Lemma canonical_bytes_differ (m1 m2 : dict) (k v1 v2 : string) :
  well_formed_dict m2 ->
  In (k, v1) m1 -> In (k, v2) m2 -> v1 <> v2 ->
  encode_utf8 (canonical_json m1) <> encode_utf8 (canonical_json m2).
Proof.
  intros Hwf H1 H2 Hne Heq.
  apply encode_utf8_inj, canonical_json_inj in Heq.
  apply Hne. apply (dict_value_unique m2 k v1 v2 Hwf); [|assumption].
  now apply (Permutation_in _ Heq).
Qed.

End CanonicalForm.

(** *** The hexadecimal rendering determines the digest *)

Section DigestRendering.

Lemma add32_range (a b : Z) : 0 <= add32 a b < 2 ^ 32.
Proof. unfold add32, w32. apply Z.mod_pos_bound. reflexivity. Qed.

Lemma sha_block_ok (s : sha_state) (block : list Z) :
  sha_state_ok (sha_block s block).
Proof.
  unfold sha_state_ok, sha_block.
  cbn [h0 h1 h2 h3 h4 h5 h6 h7].
  repeat split; apply add32_range.
Qed.

Lemma sha_blocks_ok (n : nat) (s : sha_state) (bytes : list Z) :
  sha_state_ok s -> sha_state_ok (sha_blocks n s bytes).
Proof.
  revert s bytes. induction n as [|n IH]; intros s bytes Hs; cbn;
    [assumption|].
  apply IH, sha_block_ok.
Qed.

Lemma sha256_ok (msg : list Z) : sha_state_ok (sha256 msg).
Proof.
  apply sha_blocks_ok. unfold sha_state_ok, sha_init. cbn. lia.
Qed.

Lemma hex_val_hex_digit (n : Z) : 0 <= n < 16 -> hex_val (hex_digit n) = n.
Proof.
  intros [Hlo Hhi]. destruct n as [|p|p]; [reflexivity| |lia].
  do 4 (try (destruct p as [p|p|]; try lia; try reflexivity)).
Qed.

Lemma word_hex_digits (w : Z) :
  word_hex w
  = string_of_list_ascii
      [hex_digit ((w / 268435456) mod 16); hex_digit ((w / 16777216) mod 16);
       hex_digit ((w / 1048576) mod 16); hex_digit ((w / 65536) mod 16);
       hex_digit ((w / 4096) mod 16); hex_digit ((w / 256) mod 16);
       hex_digit ((w / 16) mod 16); hex_digit ((w / 1) mod 16)].
Proof. reflexivity. Qed.

End DigestRendering.

(** ** Reasoning about computations *)

Section Post.

Lemma post_ret {A : Type} (a : A) (tr : trace) Q :
  Q (inr a) tr -> post (ret a) tr Q.
Proof. exact (fun H => H). Qed.

Lemma post_raise {A : Type} (e : exn) (tr : trace)
    (Q : result A -> trace -> Prop) :
  Q (inl e) tr -> post (raise e) tr Q.
Proof. exact (fun H => H). Qed.

Lemma post_bind {A B : Type} (m : M A) (k : A -> M B) (tr : trace) Q :
  post m tr (fun r tr' =>
               match r with
               | inr a => post (k a) tr' Q
               | inl e => Q (inl e) tr'
               end) ->
  post (bind m k) tr Q.
Proof.
  unfold post, bind. destruct (m tr) as [[e|a] tr']; exact (fun H => H).
Qed.

Lemma post_try_catch {A : Type} (m : M A) (h : exn -> M A) (tr : trace) Q :
  post m tr (fun r tr' =>
               match r with
               | inr a => Q (inr a) tr'
               | inl e => post (h e) tr' Q
               end) ->
  post (try_catch m h) tr Q.
Proof.
  unfold post, try_catch. destruct (m tr) as [[e|a] tr']; exact (fun H => H).
Qed.

Lemma post_finally {A : Type} (m : M A) (f : M unit) (tr : trace) Q :
  post m tr (fun r tr' =>
               post f tr' (fun rf tr'' =>
                             match rf with
                             | inr _ => Q r tr''
                             | inl e => Q (inl e) tr''
                             end)) ->
  post (finally_ m f) tr Q.
Proof.
  unfold post, finally_. destruct (m tr) as [r tr']. cbn [fst snd].
  destruct (f tr') as [[e|u] tr'']; exact (fun H => H).
Qed.

Lemma post_perform {A : Type} (c : call) (reply : nat -> result A)
    (tr : trace) Q :
  Q (reply (List.length tr))
    (tr ++ [(c, returned (reply (List.length tr)))]) ->
  post (perform c reply) tr Q.
Proof. exact (fun H => H). Qed.

Lemma post_conseq {A : Type} (m : M A) (tr : trace)
    (Q Q' : result A -> trace -> Prop) :
  post m tr Q -> (forall r tr', Q r tr' -> Q' r tr') -> post m tr Q'.
Proof. unfold post. auto. Qed.

Lemma post_run {A : Type} (m : M A) (tr : trace) Q r tr' :
  post m tr Q -> m tr = (r, tr') -> Q r tr'.
Proof. unfold post. intros H Heq. now rewrite Heq in H. Qed.

End Post.

(** ** call_log.py and raw_ingest.py on the connection *)

Section ConnectionCalls.

Variable E : Env.

(** The outcome of a call on the connection, as a flag. *)
Lemma post_conn_call (c : call) (tr : trace) Q :
  (forall r : result unit,
      Q r (tr ++ [(c, returned r)])) ->
  post (conn_call E c) tr Q.
Proof. intros H. apply post_perform, H. Qed.

Lemma post_cursor_rowcount (tr : trace) Q :
  Q (inr (rowcount_reply E (List.length tr))) tr ->
  post (cursor_rowcount E) tr Q.
Proof. exact (fun H => H). Qed.

(** What [insert_call_log] does with the connection: it asks for a cursor;
    once it has one it executes its one statement and closes the cursor,
    whether the statement raised or not; it returns exactly when all three
    calls returned. *)
Lemma insert_call_log_calls (snapshot_id : string) (page_start page_end : Z)
    (called_at : datetime) (status : string) (tr : trace) :
  let stmt := InsertCallLog (date_of called_at) snapshot_id page_start
                            page_end called_at status in
  post (insert_call_log E snapshot_id page_start page_end called_at status) tr
    (fun r tr' =>
       (tr' = tr ++ [(ConnCursor, false)] /\ returned r = false) \/
       (exists b1 b2,
           tr' = tr ++ [(ConnCursor, true); (CursorExecute stmt, b1);
                        (CursorClose, b2)] /\
           returned r = b1 && b2)).
Proof.
  intros stmt. unfold insert_call_log. fold stmt.
  apply post_bind, post_conn_call. intros [e|[]]; cbn [returned].
  - left. split; reflexivity.
  - apply post_finally, post_conn_call. intros r1.
    apply post_conn_call. intros r2.
    rewrite <- !app_assoc. cbn [app].
    destruct r2 as [e2|[]], r1 as [e1|[]]; right; eexists _, _;
      (split; [reflexivity|reflexivity]).
Qed.

Lemma ingest_rows_page_nonempty (snapshot_id : string)
    (collected_at : datetime) (page_start page_end : Z) (row : dict)
    (rows : list dict) :
  let insert_rows :=
    insert_values snapshot_id collected_at page_start page_end
                  (row :: rows) in
  ingest_rows_page E snapshot_id collected_at page_start page_end
                   (row :: rows)
  = (conn_call E ConnCursor ;;;
     counts <-
       finally_
         (try_catch
            (conn_call E (CursorExecute (InsertRaw insert_rows)) ;;;
             inserted_rows <- cursor_rowcount E ;;
             ret (inserted_rows,
                  Z.of_nat (List.length insert_rows) - inserted_rows))
            (fun e =>
               raise (RuntimeError
                        ("Raw 데이터 적재 실패: " ++ str_exn e)%string)))
         (conn_call E CursorClose) ;;
     ret (mk_ingest (Z.of_nat (List.length insert_rows))
                    (fst counts) (snd counts))).
Proof. reflexivity. Qed.

(** What [ingest_rows_page] does with the connection. *)
Lemma ingest_rows_page_calls (snapshot_id : string) (collected_at : datetime)
    (page_start page_end : Z) (rows : list dict) (tr : trace) :
  let values :=
    insert_values snapshot_id collected_at page_start page_end rows in
  let attempted := Z.of_nat (List.length rows) in
  let inserted := rowcount_reply E (S (S (List.length tr))) in
  post (ingest_rows_page E snapshot_id collected_at page_start page_end rows)
    tr
    (fun r tr' =>
       match rows with
       | [] => tr' = tr /\ r = inr (mk_ingest 0 0 0)
       | _ :: _ =>
           (tr' = tr ++ [(ConnCursor, false)] /\ returned r = false) \/
           (exists b1 b2,
               tr' = tr ++ [(ConnCursor, true);
                            (CursorExecute (InsertRaw values), b1);
                            (CursorClose, b2)] /\
               returned r = b1 && b2 /\
               (b1 && b2 = true ->
                r = inr (mk_ingest attempted inserted
                                   (attempted - inserted))))
       end).
Proof.
  intros values attempted inserted.
  destruct rows as [|row rows].
  - apply post_ret. split; reflexivity.
  - rewrite ingest_rows_page_nonempty. cbv zeta. fold values.
    assert (Hlen : List.length values = List.length (row :: rows))
      by apply length_map.
    fold attempted in Hlen. rewrite Hlen. fold attempted. clearbody values.
    apply post_bind, post_conn_call. intros [e|[]]; cbn [returned].
    + left. split; reflexivity.
    + apply post_bind, post_finally, post_try_catch, post_bind, post_conn_call.
      intros [e1|[]]; cbn [returned].
      * apply post_raise, post_conn_call. intros r2.
        rewrite <- !app_assoc. cbn [app].
        destruct r2 as [e2|[]]; right; exists false; eexists;
          (split; [reflexivity|]);
          (split; [reflexivity|]); intros Hb; discriminate Hb.
      * apply post_bind, post_cursor_rowcount, post_ret, post_conn_call.
        intros r2. rewrite <- !app_assoc. cbn [app].
        destruct r2 as [e2|[]]; cbn [returned].
        -- right. exists true, false.
           split; [reflexivity|]. split; [reflexivity|].
           intros Hb; discriminate Hb.
        -- apply post_ret. right. exists true, true.
           split; [reflexivity|]. split; [reflexivity|].
           intros _. cbn [fst snd]. unfold inserted.
           rewrite length_app. cbn [List.length].
           rewrite Nat.add_comm. reflexivity.
Qed.

End ConnectionCalls.

(** ** Traces *)

Section Traces.

Lemma fetches_app (a b : trace) : fetches (a ++ b) = fetches a ++ fetches b.
Proof. apply flat_map_app. Qed.

Lemma executed_app (a b : trace) :
  executed (a ++ b) = executed a ++ executed b.
Proof. apply flat_map_app. Qed.

Lemma commits_app (a b : trace) : commits (a ++ b) = (commits a + commits b)%nat.
Proof. unfold commits. now rewrite filter_app, length_app. Qed.

Lemma rollbacks_app (a b : trace) :
  rollbacks (a ++ b) = (rollbacks a + rollbacks b)%nat.
Proof. unfold rollbacks. now rewrite filter_app, length_app. Qed.

Lemma tx_run_app (c p : list statement) (a b : trace) :
  tx_run c p (a ++ b) = tx_run (fst (tx_run c p a)) (snd (tx_run c p a)) b.
Proof.
  revert c p. induction a as [|[k ok] a IH]; intros c p; cbn [app tx_run].
  - reflexivity.
  - destruct k, ok; apply IH.
Qed.

Lemma quiet_nil : quiet [].
Proof. constructor. Qed.

Lemma quiet_app (a b : trace) : quiet a -> quiet b -> quiet (a ++ b).
Proof. intros Ha Hb. apply Forall_app. now split. Qed.

Lemma quiet_cons (x : call * bool) (d : trace) :
  quiet_entry x = true -> quiet d -> quiet (x :: d).
Proof. intros Hc Hd. constructor; assumption. Qed.

Lemma quiet_fetches (d : trace) : quiet d -> fetches d = [].
Proof.
  induction 1 as [|[k ok] d Hk _ IH]; [reflexivity|].
  cbn in *. destruct k; try discriminate; exact IH.
Qed.

Lemma quiet_commits (d : trace) : quiet d -> commits d = 0%nat.
Proof.
  induction 1 as [|[k ok] d Hk _ IH]; [reflexivity|].
  unfold commits in *. cbn in *.
  destruct k, ok; try discriminate; exact IH.
Qed.

Lemma quiet_no_commit (d : trace) (b : bool) :
  quiet d -> ~ In (ConnCommit, b) d.
Proof.
  intros Hq Hin. unfold quiet in Hq. rewrite Forall_forall in Hq.
  specialize (Hq _ Hin). discriminate Hq.
Qed.

Lemma quiet_rollbacks (d : trace) : quiet d -> rollbacks d = 0%nat.
Proof.
  induction 1 as [|[k ok] d Hk _ IH]; [reflexivity|].
  unfold rollbacks in *. cbn in *.
  destruct k, ok; try discriminate; exact IH.
Qed.

Lemma quiet_tx_run (c p : list statement) (d : trace) :
  quiet d -> tx_run c p d = (c, p ++ executed d).
Proof.
  intros H. revert p. induction H as [|[k ok] d Hk _ IH]; intros p.
  - cbn. now rewrite app_nil_r.
  - cbn in Hk. destruct k, ok; try discriminate; cbn [tx_run];
      rewrite IH; cbn; rewrite <- ?app_assoc; reflexivity.
Qed.

End Traces.

(** ** Computations and the calls they add *)

Section Runs.

Lemma runs_ret {A : Type} (a : A) (tr : trace) Q :
  Q (inr a) [] -> runs (ret a) tr Q.
Proof. intros H. exists []. now rewrite app_nil_r. Qed.

Lemma runs_raise {A : Type} (e : exn) (tr : trace)
    (Q : result A -> trace -> Prop) :
  Q (inl e) [] -> runs (raise e) tr Q.
Proof. intros H. exists []. now rewrite app_nil_r. Qed.

Lemma runs_bind {A B : Type} (m : M A) (k : A -> M B) (tr : trace) Q :
  runs m tr (fun r d =>
               match r with
               | inr a => runs (k a) (tr ++ d) (fun r' d' => Q r' (d ++ d'))
               | inl e => Q (inl e) d
               end) ->
  runs (bind m k) tr Q.
Proof.
  unfold runs. intros H. apply post_bind.
  eapply post_conseq; [exact H|]. clear H.
  intros [e|a] tr' (d & -> & H).
  - now exists d.
  - eapply post_conseq; [exact H|]. intros r' tr'' (d' & -> & H').
    exists (d ++ d'). now rewrite app_assoc.
Qed.

Lemma runs_try_catch {A : Type} (m : M A) (h : exn -> M A) (tr : trace) Q :
  runs m tr (fun r d =>
               match r with
               | inr a => Q (inr a) d
               | inl e => runs (h e) (tr ++ d) (fun r' d' => Q r' (d ++ d'))
               end) ->
  runs (try_catch m h) tr Q.
Proof.
  unfold runs. intros H. apply post_try_catch.
  eapply post_conseq; [exact H|]. clear H.
  intros [e|a] tr' (d & -> & H).
  - eapply post_conseq; [exact H|]. intros r' tr'' (d' & -> & H').
    exists (d ++ d'). now rewrite app_assoc.
  - now exists d.
Qed.

Lemma runs_conseq {A : Type} (m : M A) (tr : trace)
    (Q Q' : result A -> trace -> Prop) :
  runs m tr Q -> (forall r d, Q r d -> Q' r d) -> runs m tr Q'.
Proof.
  unfold runs. intros H HQ. eapply post_conseq; [exact H|].
  intros r tr' (d & -> & H'). exists d. auto.
Qed.

Lemma runs_perform {A : Type} (c : call) (reply : nat -> result A)
    (tr : trace) Q :
  Q (reply (List.length tr)) [(c, returned (reply (List.length tr)))] ->
  runs (perform c reply) tr Q.
Proof. intros H. eexists. split; [reflexivity|exact H]. Qed.

Lemma runs_outcome {A : Type} (m : M A) (tr : trace) Q :
  runs m tr Q ->
  exists r d, m tr = (r, tr ++ d) /\ Q r d.
Proof.
  unfold runs, post. destruct (m tr) as [r tr']. cbn.
  intros (d & -> & H). now exists r, d.
Qed.

End Runs.

Ltac quiet_tac :=
  repeat first [ assumption
               | apply quiet_nil
               | apply quiet_app
               | apply quiet_cons; [reflexivity|] ].

Ltac norm_app :=
  repeat first [ rewrite <- app_assoc
               | rewrite app_nil_r
               | progress cbn [app] ].


(** ** The snapshot runner *)

Section Runner.

Variable E : Env.

Lemma conn_call_runs (c : call) (tr : trace) Q :
  (forall r : result unit,
      r = match conn_reply E (List.length tr) c with
          | Some e => inl e
          | None => inr tt
          end ->
      Q r [(c, returned r)]) ->
  runs (conn_call E c) tr Q.
Proof. intros H. apply runs_perform, H. reflexivity. Qed.

Lemma insert_call_log_runs (snapshot_id : string) (page_start page_end : Z)
    (called_at : datetime) (status : string) (tr : trace) :
  runs (insert_call_log E snapshot_id page_start page_end called_at status) tr
    (fun r d =>
       quiet d /\
       (returned r = true ->
        executed d = [InsertCallLog (date_of called_at) snapshot_id
                                    page_start page_end called_at status])).
Proof.
  unfold runs. eapply post_conseq; [apply insert_call_log_calls|].
  cbv beta zeta. intros r tr' [[-> Hr]|(b1 & b2 & -> & Hr)]; eexists;
    (split; [reflexivity|]).
  - split; [repeat constructor|]. congruence.
  - split; [repeat constructor|]. rewrite Hr.
    destruct b1, b2; try discriminate. reflexivity.
Qed.

Lemma ingest_rows_page_runs (snapshot_id : string) (collected_at : datetime)
    (page_start page_end : Z) (rows : list dict) (tr : trace) :
  runs (ingest_rows_page E snapshot_id collected_at page_start page_end rows)
    tr
    (fun r d =>
       quiet d /\
       forall res, r = inr res ->
         executed d
         = match rows with
           | [] => []
           | _ :: _ =>
               [InsertRaw (insert_values snapshot_id collected_at page_start
                                         page_end rows)]
           end /\
         ir_attempted_rows res = Z.of_nat (List.length rows) /\
         ir_skipped_duplicates res
         = ir_attempted_rows res - ir_inserted_rows res).
Proof.
  unfold runs. eapply post_conseq; [apply ingest_rows_page_calls|].
  cbv beta zeta. intros r tr' H. destruct rows as [|row rows].
  - destruct H as [-> ->]. exists []. rewrite app_nil_r.
    split; [reflexivity|]. split; [constructor|].
    intros res [= <-]. repeat split.
  - destruct H as [[-> Hr]|(b1 & b2 & -> & Hr & Hres)]; eexists;
      (split; [reflexivity|]).
    + split; [repeat constructor|]. intros res ->. discriminate Hr.
    + split; [repeat constructor|]. intros res ->. cbn in Hr.
      symmetry in Hr. specialize (Hres Hr). injection Hres as ->.
      apply andb_prop in Hr as [-> ->]. repeat split.
Qed.

(** The handler of a failed page: whatever happens to its ledger entry, it
    ends with one [rollback()], whose outcome is its own. *)
Lemma log_error_and_rollback_runs (snapshot_id : string)
    (page_start page_end : Z) (tr : trace) :
  runs (log_error_and_rollback E snapshot_id page_start page_end) tr
    (fun r d =>
       exists d0 rb,
         d = d0 ++ [(ConnRollback, rb)] /\ quiet d0 /\ returned r = rb /\
         (rollback_returns E -> rb = true) /\
         (forall e1, rollback_raises E e1 -> r = inl e1)).
Proof.
  assert (Hcall : forall (tr0 : trace) (r : result unit),
             r = match conn_reply E (List.length tr0) ConnRollback with
                 | Some e => inl e
                 | None => inr tt
                 end ->
             (rollback_returns E -> returned r = true) /\
             (forall e1, rollback_raises E e1 -> r = inl e1)).
  { intros tr0 r ->. split.
    - intros Hn. now rewrite Hn.
    - intros e1 He. now rewrite He. }
  unfold log_error_and_rollback.
  apply runs_bind, runs_try_catch, runs_bind, runs_perform.
  destruct (clock_reply E (List.length tr)) as [e|called_at]; cbn [returned].
  - apply runs_ret. apply conn_call_runs. intros r Hr.
    apply Hcall in Hr as [Hr1 Hr2].
    eexists _, _. split; [reflexivity|]. split; [quiet_tac|].
    split; [reflexivity|]. split; assumption.
  - eapply runs_conseq; [apply insert_call_log_runs|].
    intros [e|[]] d [Hq _].
    + apply runs_ret. apply conn_call_runs. intros r Hr.
      apply Hcall in Hr as [Hr1 Hr2].
      eexists _, _. split; [reflexivity|]. split; [quiet_tac|].
      split; [reflexivity|]. split; assumption.
    + apply conn_call_runs. intros r Hr.
      apply Hcall in Hr as [Hr1 Hr2].
      eexists _, _. split; [reflexivity|]. split; [quiet_tac|].
      split; [reflexivity|]. split; assumption.
Qed.

Lemma fail_page_runs (snapshot_id : string) (page_result : PageResult)
    (exc : exn) (tr : trace) :
  runs (fail_page E snapshot_id page_result exc) tr
    (fun r d =>
       exists d1 rb,
         d = d1 ++ [(ConnRollback, rb)] /\ quiet d1 /\ returned r = rb /\
         (rollback_returns E -> rb = true) /\
         (forall e1, rollback_raises E e1 -> r = inl e1) /\
         forall pr, r = inr pr ->
           pr = {| p_start := p_start page_result;
                   p_end := p_end page_result;
                   p_status := "error";
                   p_attempted_rows := p_attempted_rows page_result;
                   p_inserted_rows := p_inserted_rows page_result;
                   p_skipped_duplicates := p_skipped_duplicates page_result;
                   p_error := Some (str_exn exc) |}).
Proof.
  unfold fail_page. apply runs_bind.
  eapply runs_conseq; [apply log_error_and_rollback_runs|].
  intros r d (d0 & rb & -> & Hq & Hr & Hrb & Hre). destruct r as [e|[]].
  - exists d0, rb. split; [reflexivity|]. split; [assumption|].
    split; [assumption|]. split; [assumption|].
    split; [intros e1 He1; specialize (Hre e1 He1); congruence|].
    intros pr Hpr. discriminate Hpr.
  - apply runs_ret. exists d0, rb. norm_app. split; [reflexivity|].
    split; [assumption|]. split; [assumption|]. split; [assumption|].
    split; [intros e1 He1; discriminate (Hre e1 He1)|].
    intros pr [= <-]. reflexivity.
Qed.

(** Lines 194-219 of the loop: the call of the provider, the ledger entry
    and the ingest, with the exception that ended them, if any. *)
Lemma page_attempt_runs (snapshot_id : string) (collected_at : datetime)
    (s e : Z) (tr : trace) :
  runs
    (try_catch
       (page_data <- fetch_page E s e ;;
        called_at <- clock E ;;
        insert_call_log E snapshot_id s e called_at "success" ;;;
        ingest_result <-
          ingest_rows_page E snapshot_id collected_at s e
                           (pd_rows page_data) ;;
        ret (inr (Z.of_nat (List.length (pd_rows page_data)),
                  ingest_result)))
       (fun exc => ret (inl exc)))
    tr
    (fun r d =>
       exists b d0,
         d = (FetchPage s e, b) :: d0 /\ quiet d0 /\
         match r with
         | inl _ => False
         | inr (inl exc) =>
             forall e0, fetch_page_reply E (List.length tr) s e = inl e0 ->
                        exc = e0 /\ b = false /\ d0 = []
         | inr (inr (attempted, ingest_result)) =>
             exists pd called_at,
               fetch_page_reply E (List.length tr) s e = inr pd /\
               clock_reply E (S (List.length tr)) = inr called_at /\
               b = true /\
               executed d0
               = page_statements snapshot_id collected_at s e called_at
                                 (pd_rows pd) /\
               attempted = Z.of_nat (List.length (pd_rows pd)) /\
               ir_skipped_duplicates ingest_result
               = attempted - ir_inserted_rows ingest_result
         end).
Proof.
  apply runs_try_catch, runs_bind, runs_perform.
  destruct (fetch_page_reply E (List.length tr) s e) as [e0|pd] eqn:Hfetch;
    cbn [returned].
  - apply runs_ret. exists false, []. norm_app.
    split; [reflexivity|]. split; [quiet_tac|].
    intros e0' [= <-]. repeat split.
  - apply runs_bind, runs_perform.
    rewrite length_app, Nat.add_comm. cbn [List.length Nat.add].
    destruct (clock_reply E (S (List.length tr))) as [e1|called_at] eqn:Hclock;
      cbn [returned].
    + apply runs_ret. eexists true, _. norm_app.
      split; [reflexivity|]. split; [quiet_tac|]. congruence.
    + apply runs_bind.
      eapply runs_conseq; [apply insert_call_log_runs|].
      intros [e2|[]] d2 [Hq2 Hex2].
      * apply runs_ret. eexists true, _. norm_app.
        split; [reflexivity|]. split; [quiet_tac|]. congruence.
      * apply runs_bind.
        eapply runs_conseq; [apply ingest_rows_page_runs|].
        intros [e3|ir] d3 [Hq3 Hex3].
        -- apply runs_ret. eexists true, _. norm_app.
           split; [reflexivity|]. split; [quiet_tac|]. congruence.
        -- apply runs_ret. eexists true, _. norm_app.
           split; [reflexivity|]. split; [quiet_tac|].
           exists pd, called_at.
           destruct (Hex3 ir eq_refl) as (Hx & Ha & Hs).
           split; [reflexivity|]. split; [reflexivity|].
           split; [reflexivity|].
           split.
           ++ change ((ClockNow, true) :: d2 ++ d3)
                with ([(ClockNow, true)] ++ d2 ++ d3).
              rewrite !executed_app, (Hex2 eq_refl), Hx. reflexivity.
           ++ split; [reflexivity|]. rewrite Hs, Ha. reflexivity.
Qed.

Lemma run_page_runs (snapshot_id : string) (collected_at : datetime)
    (s e : Z) (tr : trace) :
  runs (run_page E snapshot_id collected_at (s, e)) tr
    (fun r d =>
       (exists pr, r = inr pr /\
                   page_went_through E snapshot_id collected_at s e tr pr d)
       \/ page_failed E true s e tr r d).
Proof.
  unfold run_page. apply runs_bind.
  eapply runs_conseq; [apply page_attempt_runs|].
  intros [e0|[exc|[attempted ir]]] d (b & d0 & -> & Hq & H); [contradiction| |].
  - (* an exception before the commit *)
    eapply runs_conseq; [apply fail_page_runs|].
    intros r d (d1 & rb & -> & Hq1 & Hr & Hrb & Hre & Hpr). right.
    exists b, d0, [], d1, rb, exc. norm_app.
    split; [reflexivity|]. split; [assumption|]. split; [assumption|].
    split; [now left|]. split; [assumption|]. split; [assumption|].
    split; [assumption|].
    split; [intros e0 He0; destruct (H e0 He0) as (? & ? & ?); auto|].
    intros pr Hp. rewrite (Hpr pr Hp). cbn. repeat split.
    intros Hcm. now contradiction Hcm.
  - destruct H as (pd & called_at & Hfetch & Hclock & -> & Hex & -> & Hs).
    apply runs_try_catch, runs_bind, conn_call_runs. intros rc Hrc.
    destruct rc as [ec|[]]; cbn [returned].
    + (* the commit raised *)
      eapply runs_conseq; [apply fail_page_runs|].
      intros r d (d1 & rb & -> & Hq1 & Hr & Hrb & Hre & Hpr). right.
      exists true, d0, [(ConnCommit, false)], d1, rb, ec. norm_app.
      split; [reflexivity|]. split; [assumption|]. split; [assumption|].
      split; [now right|]. split; [assumption|]. split; [assumption|].
      split; [assumption|]. split; [congruence|].
      intros pr Hp. rewrite (Hpr pr Hp). cbn.
      split; [reflexivity|]. split; [reflexivity|]. split; [reflexivity|].
      split; [reflexivity|].
      split; [intros [Hcm|Hk]; discriminate|].
      intros _ _. exists pd. repeat split; assumption.
    + apply runs_ret. left. eexists. split; [reflexivity|].
      exists pd, called_at, (ir_inserted_rows ir), d0. norm_app.
      repeat split; try assumption. now rewrite Hs.
Qed.

End Runner.

Section RunnerPages.

Variable E : Env.

Hypothesis Hrollback : rollback_returns E.

Lemma run_pages_runs (snapshot_id : string) (collected_at : datetime)
    (ranges : list (Z * Z)) (acc : list PageResult) (tr : trace) :
  runs (run_pages E snapshot_id collected_at ranges acc) tr
    (fun r d =>
       exists prs,
         r = inr (acc ++ prs) /\
         pages_run E snapshot_id collected_at true tr ranges prs d).
Proof.
  revert acc tr. induction ranges as [|[s e] rest IH]; intros acc tr;
    cbn [run_pages].
  - apply runs_ret. exists []. rewrite app_nil_r. split; [reflexivity|].
    constructor.
  - apply runs_bind.
    eapply runs_conseq; [apply run_page_runs|].
    intros r d [(pr & -> & Hok)|Hfail].
    + eapply runs_conseq; [apply IH|].
      intros r' d' (prs & -> & Hrun). exists (pr :: prs).
      rewrite <- app_assoc. split; [reflexivity|].
      econstructor; [left; exact Hok | exact Hrun].
    + assert (Hret : returned r = true).
      { destruct Hfail
          as (b & d0 & cm & d1 & rb & exc & _ & _ & _ & _ & -> & Hrb & _).
        apply Hrb, Hrollback. }
      destruct r as [e0|pr]; [discriminate|].
      eapply runs_conseq; [apply IH|].
      intros r' d' (prs & -> & Hrun). exists (pr :: prs).
      rewrite <- app_assoc. split; [reflexivity|].
      econstructor; [right; exact Hfail | exact Hrun].
Qed.

End RunnerPages.

Section PageFacts.

Variable E : Env.
Variables (snapshot_id : string) (collected_at : datetime).

Lemma page_went_through_facts (s e : Z) (tr : trace) (pr : PageResult)
    (d : trace) :
  page_went_through E snapshot_id collected_at s e tr pr d ->
  range_of pr = (s, e) /\ p_status pr = "ok" /\
  fetches d = [(s, e)] /\ commits d = 1%nat /\ rollbacks d = 0%nat /\
  exists w,
    (forall c p, tx_run c p d = (c ++ p ++ w, [])) /\
    ledger_ranges w = [(s, e)] /\ ledger_statuses w = ["success"].
Proof.
  intros (pd & called_at & inserted & d0 & Hf & Hc & Hq & Hex & -> & ->).
  split; [reflexivity|]. split; [reflexivity|].
  change ((FetchPage s e, true) :: d0 ++ [(ConnCommit, true)])
    with ([(FetchPage s e, true)] ++ d0 ++ [(ConnCommit, true)]).
  rewrite !fetches_app, !commits_app, !rollbacks_app.
  rewrite (quiet_fetches d0 Hq), (quiet_commits d0 Hq),
    (quiet_rollbacks d0 Hq).
  split; [reflexivity|]. split; [reflexivity|]. split; [reflexivity|].
  exists (executed d0). split.
  - intros c p. cbn [app tx_run]. rewrite tx_run_app, (quiet_tx_run _ _ _ Hq).
    cbn. now rewrite app_assoc.
  - rewrite Hex. unfold page_statements.
    destruct (pd_rows pd); split; reflexivity.
Qed.

Lemma page_failed_facts (k : bool) (s e : Z) (tr : trace)
    (pr : PageResult) (d : trace) :
  page_failed E k s e tr (inr pr) d ->
  range_of pr = (s, e) /\ p_status pr = "error" /\
  fetches d = [(s, e)] /\ commits d = 0%nat /\ rollbacks d = 1%nat /\
  forall c p, tx_run c p d = (c, []).
Proof.
  intros (b & d0 & cm & d1 & rb & exc & -> & Hq0 & Hq1 & Hcm & Hrb & _ & _
          & _ & Hpr).
  cbn in Hrb. subst rb.
  destruct (Hpr pr eq_refl) as (Hs & He & Hst & _).
  split; [unfold range_of; congruence|]. split; [assumption|].
  change ((FetchPage s e, b) :: d0 ++ cm ++ d1 ++ [(ConnRollback, true)])
    with ([(FetchPage s e, b)] ++ d0 ++ cm ++ d1 ++ [(ConnRollback, true)]).
  rewrite !fetches_app, !commits_app, !rollbacks_app.
  rewrite (quiet_fetches d0 Hq0), (quiet_commits d0 Hq0),
    (quiet_rollbacks d0 Hq0), (quiet_fetches d1 Hq1), (quiet_commits d1 Hq1),
    (quiet_rollbacks d1 Hq1).
  assert (Hcmf : fetches cm = [] /\ commits cm = 0%nat /\
                 rollbacks cm = 0%nat /\
                 forall c p, tx_run c p cm = (c, p)).
  { destruct Hcm as [->| ->]; repeat split. }
  destruct Hcmf as (-> & -> & -> & Htx).
  split; [reflexivity|]. split; [reflexivity|]. split; [reflexivity|].
  intros c p. cbn [app].
  assert (Hskip : forall l, tx_run c p ((FetchPage s e, b) :: l)
                            = tx_run c p l).
  { intros l. destruct b; reflexivity. }
  rewrite Hskip, tx_run_app, (quiet_tx_run _ _ _ Hq0). cbn [fst snd].
  rewrite tx_run_app, Htx. cbn [fst snd].
  rewrite tx_run_app, (quiet_tx_run _ _ _ Hq1). reflexivity.
Qed.

End PageFacts.

Section PagesFacts.

Variable E : Env.
Variables (snapshot_id : string) (collected_at : datetime).

Lemma ledger_ranges_app (a b : list statement) :
  ledger_ranges (a ++ b) = ledger_ranges a ++ ledger_ranges b.
Proof. apply flat_map_app. Qed.

Lemma ledger_statuses_app (a b : list statement) :
  ledger_statuses (a ++ b) = ledger_statuses a ++ ledger_statuses b.
Proof. apply flat_map_app. Qed.

Lemma pages_run_facts (k : bool) (tr : trace) (ranges : list (Z * Z))
    (prs : list PageResult) (d : trace) :
  pages_run E snapshot_id collected_at k tr ranges prs d ->
  map range_of prs = ranges /\
  Forall (fun pr => p_status pr = "ok" \/ p_status pr = "error") prs /\
  fetches d = ranges /\
  commits d = List.length (with_status "ok" prs) /\
  rollbacks d = List.length (with_status "error" prs) /\
  exists w,
    (forall c, tx_run c [] d = (c ++ w, [])) /\
    ledger_ranges w = map range_of (with_status "ok" prs) /\
    Forall (eq "success") (ledger_statuses w).
Proof.
  induction 1 as [k tr|k tr s e rest pr d prs ds Hpage Hrest IH].
  - repeat split; try constructor.
    exists []. split; [intros c; cbn; now rewrite app_nil_r|].
    split; constructor.
  - destruct IH as (IHr & IHs & IHf & IHc & IHb & w' & IHw & IHl & IHst).
    rewrite fetches_app, commits_app, rollbacks_app.
    destruct Hpage as [Hok|Hfail].
    + destruct (page_went_through_facts _ _ _ _ _ _ _ _ Hok)
        as (Hr & Hst & Hf & Hc & Hb & w & Hw & Hl & Hls).
      unfold with_status in *. cbn [map filter]. rewrite Hst. cbn.
      rewrite Hr, IHr, Hf, IHf, Hc, IHc, Hb, IHb.
      repeat split; try (constructor; [now left|assumption]).
      exists (w ++ w'). split.
      * intros c. rewrite tx_run_app, Hw. cbn [fst snd app].
        rewrite IHw, app_assoc. reflexivity.
      * rewrite ledger_ranges_app, ledger_statuses_app, Hl, Hls, IHl.
        split; [reflexivity|]. constructor; [reflexivity|assumption].
    + destruct (page_failed_facts _ _ _ _ _ _ _ Hfail)
        as (Hr & Hst & Hf & Hc & Hb & Hw).
      unfold with_status in *. cbn [map filter]. rewrite Hst. cbn.
      rewrite Hr, IHr, Hf, IHf, Hc, IHc, Hb, IHb.
      repeat split; try (constructor; [now right|assumption]).
      exists w'. split.
      * intros c. rewrite tx_run_app, Hw. cbn [fst snd]. apply IHw.
      * split; assumption.
Qed.

End PagesFacts.

Section Probe.

Variable E : Env.
Variables (snapshot_id : string) (collected_at : datetime).

Lemma probe_body_runs (tr : trace) :
  runs
    (page_data <- fetch_page E 0 999 ;;
     called_at <- clock E ;;
     insert_call_log E snapshot_id 0 999 called_at "success" ;;;
     ingest_result <-
       ingest_rows_page E snapshot_id collected_at 0 999
                        (pd_rows page_data) ;;
     conn_call E ConnCommit ;;;
     ret ({| p_start := 0; p_end := 999; p_status := "ok";
             p_attempted_rows :=
               Z.of_nat (List.length (pd_rows page_data));
             p_inserted_rows := ir_inserted_rows ingest_result;
             p_skipped_duplicates := ir_skipped_duplicates ingest_result;
             p_error := None |},
          pd_total_count page_data,
          decide_page_count (pd_total_count page_data)))
    tr
    (fun r d =>
       match r with
       | inl exc =>
           exists b d0 cm,
             d = (FetchPage 0 999, b) :: d0 ++ cm /\ quiet d0 /\
             (cm = [] \/ cm = [(ConnCommit, false)]) /\
             forall e0, fetch_page_reply E (List.length tr) 0 999 = inl e0 ->
                        exc = e0 /\ b = false /\ d0 = [] /\ cm = []
       | inr (pr, total_count, decided) =>
           exists pd,
             fetch_page_reply E (List.length tr) 0 999 = inr pd /\
             total_count = pd_total_count pd /\
             decided = decide_page_count (pd_total_count pd) /\
             page_went_through E snapshot_id collected_at 0 999 tr pr d
       end).
Proof.
  apply runs_bind, runs_perform.
  destruct (fetch_page_reply E (List.length tr) 0 999) as [e0|pd] eqn:Hfetch;
    cbn [returned].
  - exists false, [], []. split; [reflexivity|]. split; [quiet_tac|].
    split; [now left|]. intros e0' [= <-]. repeat split.
  - apply runs_bind, runs_perform.
    rewrite length_app, Nat.add_comm. cbn [List.length Nat.add].
    destruct (clock_reply E (S (List.length tr))) as [e1|called_at] eqn:Hclock;
      cbn [returned].
    + exists true, [(ClockNow, false)], []. norm_app.
      split; [reflexivity|]. split; [quiet_tac|]. split; [now left|].
      congruence.
    + apply runs_bind.
      eapply runs_conseq; [apply insert_call_log_runs|].
      intros [e2|[]] d2 [Hq2 Hex2].
      * exists true, ((ClockNow, true) :: d2), []. norm_app.
        split; [reflexivity|]. split; [quiet_tac|]. split; [now left|].
        congruence.
      * apply runs_bind.
        eapply runs_conseq; [apply ingest_rows_page_runs|].
        intros [e3|ir] d3 [Hq3 Hex3].
        -- exists true, ((ClockNow, true) :: d2 ++ d3), []. norm_app.
           split; [reflexivity|]. split; [quiet_tac|]. split; [now left|].
           congruence.
        -- apply runs_bind, conn_call_runs. intros rc Hrc.
           destruct rc as [ec|[]]; cbn [returned].
           ++ exists true, ((ClockNow, true) :: d2 ++ d3),
                [(ConnCommit, false)]. norm_app.
              split; [reflexivity|]. split; [quiet_tac|].
              split; [now right|]. congruence.
           ++ apply runs_ret. exists pd.
              split; [reflexivity|]. split; [reflexivity|].
              split; [reflexivity|].
              destruct (Hex3 ir eq_refl) as (Hx & Ha & Hs).
              exists pd, called_at, (ir_inserted_rows ir),
                ((ClockNow, true) :: d2 ++ d3).
              norm_app.
              split; [assumption|]. split; [assumption|].
              split; [quiet_tac|].
              split.
              ** change ((ClockNow, true) :: d2 ++ d3)
                   with ([(ClockNow, true)] ++ d2 ++ d3).
                 rewrite !executed_app, (Hex2 eq_refl), Hx. reflexivity.
              ** split; [reflexivity|].
                 rewrite Hs, Ha. reflexivity.
Qed.

(** The first page, called alone: it is one more page, together with the
    decision on the page count. *)
Lemma probe_first_page_runs (tr : trace) :
  runs (probe_first_page E snapshot_id collected_at) tr
    (fun r d =>
       (exists pr pd,
           r = inr (pr, pd_total_count pd,
                    decide_page_count (pd_total_count pd)) /\
           fetch_page_reply E (List.length tr) 0 999 = inr pd /\
           page_went_through E snapshot_id collected_at 0 999 tr pr d) \/
       (exists r0,
           page_failed E false 0 999 tr r0 d /\
           r = match r0 with
               | inl e => inl e
               | inr pr => inr (pr, None, 3)
               end)).
Proof.
  unfold probe_first_page. cbv zeta. fold decide_page_count.
  apply runs_try_catch.
  eapply runs_conseq; [apply probe_body_runs|].
  intros [exc|[[pr total] decided]] d H.
  - destruct H as (b & d0 & cm & -> & Hq & Hcm & Hexc).
    apply runs_bind.
    eapply runs_conseq; [apply log_error_and_rollback_runs|].
    intros r d (d1 & rb & -> & Hq1 & Hr & Hrb & Hre).
    destruct r as [e|[]].
    + right. exists (inl e). split; [|reflexivity].
      exists b, d0, cm, d1, rb, exc. norm_app.
      split; [reflexivity|]. split; [assumption|]. split; [assumption|].
      split; [assumption|]. split; [assumption|]. split; [assumption|].
      split; [intros e1 He1; specialize (Hre e1 He1); congruence|].
      split; [assumption|].
      intros pr Hpr. discriminate Hpr.
    + apply runs_ret. right. eexists (inr _). split; [|reflexivity].
      exists b, d0, cm, d1, rb, exc. norm_app.
      split; [reflexivity|]. split; [assumption|]. split; [assumption|].
      split; [assumption|]. split; [assumption|]. split; [assumption|].
      split; [intros e1 He1; discriminate (Hre e1 He1)|].
      split; [assumption|].
      intros pr [= <-]. cbn. repeat split. intros _ Hk. discriminate Hk.
  - destruct H as (pd & Hf & -> & -> & Hok). left. exists pr, pd.
    repeat split; assumption.
Qed.

End Probe.

Section RunSnapshot.

Variable E : Env.
Hypothesis Hrollback : rollback_returns E.

Lemma sum_of_from (f : PageResult -> Z) (l : list PageResult) (a : Z) :
  fold_left (fun acc p => acc + f p) l a = a + sum_of f l.
Proof.
  unfold sum_of. revert a. induction l as [|p l IH]; intros a;
    cbn [fold_left].
  - lia.
  - rewrite IH, (IH (0 + f p)). lia.
Qed.

Lemma sum_of_cons (f : PageResult -> Z) (p : PageResult)
    (l : list PageResult) :
  sum_of f (p :: l) = f p + sum_of f l.
Proof. unfold sum_of at 1. cbn [fold_left]. now rewrite sum_of_from. Qed.

Lemma errors_total_count (l : list PageResult) :
  sum_of (fun p => if String.eqb (p_status p) "error" then 1 else 0) l
  = Z.of_nat (List.length (with_status "error" l)).
Proof.
  induction l as [|p l IH]; [reflexivity|].
  rewrite sum_of_cons, IH. unfold with_status. cbn [filter].
  destruct (String.eqb (p_status p) "error"); cbn [List.length]; lia.
Qed.

(** What a run of [run_snapshot_once] amounts to, when the connection stays
    up and the clock answers the first call: one reading of the clock, then
    the pages of [all_ranges] one after the other. *)
Lemma run_snapshot_once_runs (snapshot_id : string)
    (call_ranges : option (list (Z * Z))) (tr : trace) (t : datetime) :
  clock_reply E (List.length tr) = inr t ->
  runs (run_snapshot_once E snapshot_id call_ranges) tr
    (fun r d =>
       exists res d' all_ranges,
         r = inr res /\ d = (ClockNow, true) :: d' /\
         pages_run E snapshot_id t
                   (match call_ranges with Some _ => true | None => false end)
                   (tr ++ [(ClockNow, true)]) all_ranges (r_pages res) d' /\
         r_snapshot_id res = snapshot_id /\
         r_attempted_total res = sum_of p_attempted_rows (r_pages res) /\
         r_inserted_total res = sum_of p_inserted_rows (r_pages res) /\
         r_duplicates_total res
         = sum_of p_skipped_duplicates (r_pages res) /\
         r_errors_total res
         = Z.of_nat (List.length (with_status "error" (r_pages res))) /\
         r_status res
         = (if r_errors_total res =? 0 then "ok"
            else if r_errors_total res
                    =? Z.of_nat (List.length (r_pages res))
            then "error" else "partial") /\
         match call_ranges with
         | Some ranges =>
             all_ranges = ranges /\ r_ranges res = ranges /\
             r_total_count res = None /\ r_decided_page_count res = None
         | None =>
             exists pr0 rest decided,
               r_pages res = pr0 :: rest /\
               all_ranges = (0, 999) :: r_ranges res /\
               r_decided_page_count res = Some decided /\
               r_ranges res
               = (if decided =? 4
                  then [(1000, 1999); (2000, 2999); (3000, 3999)]
                  else [(1000, 1999); (2000, 2999)]) /\
               (if String.eqb (p_status pr0) "ok"
                then exists pd,
                    fetch_page_reply E (S (List.length tr)) 0 999 = inr pd /\
                    r_total_count res = pd_total_count pd /\
                    decided = decide_page_count (pd_total_count pd)
                else r_total_count res = None /\ decided = 3)
         end).
Proof.
  intros Hclock. unfold run_snapshot_once.
  apply runs_bind, runs_perform. rewrite Hclock. cbn [returned].
  apply runs_bind.
  destruct call_ranges as [ranges|].
  - apply runs_ret. apply runs_bind.
    eapply runs_conseq; [apply run_pages_runs, Hrollback|].
    intros r d (prs & -> & Hrun). apply runs_ret. cbn [app] in *.
    eexists _, _, ranges. split; [reflexivity|].
    cbn [r_pages r_snapshot_id r_attempted_total r_inserted_total
         r_duplicates_total r_errors_total r_status r_ranges r_total_count
         r_decided_page_count].
    norm_app. rewrite app_nil_r in Hrun.
    split; [reflexivity|]. split; [exact Hrun|].
    rewrite errors_total_count. repeat split.
  - apply runs_bind.
    eapply runs_conseq; [apply probe_first_page_runs|].
    intros r d [(pr0 & pd & -> & Hfetch & Hok)|(r0 & Hfail & ->)].
    + apply runs_ret. apply runs_bind.
      eapply runs_conseq; [apply run_pages_runs, Hrollback|].
      intros r d' (prs & -> & Hrun). apply runs_ret.
      eexists _, _, ((0, 999) :: _). split; [reflexivity|].
      cbn [r_pages r_snapshot_id r_attempted_total r_inserted_total
           r_duplicates_total r_errors_total r_status r_ranges r_total_count
           r_decided_page_count].
      norm_app. rewrite app_nil_r in Hrun.
      split; [reflexivity|].
      split; [econstructor; [left; exact Hok|exact Hrun]|].
      rewrite errors_total_count. repeat split.
      exists pr0, prs, (decide_page_count (pd_total_count pd)).
      repeat split.
      assert (Hst : p_status pr0 = "ok").
      { destruct Hok as (? & ? & ? & ? & _ & _ & _ & _ & _ & ->).
        reflexivity. }
      rewrite Hst. cbn. exists pd.
      rewrite length_app, Nat.add_comm in Hfetch. repeat split. exact Hfetch.
    + assert (Hret : returned r0 = true).
      { destruct Hfail
          as (b & d0 & cm & d1 & rb & exc & _ & _ & _ & _ & -> & Hrb & _).
        apply Hrb, Hrollback. }
      destruct r0 as [e0|pr0]; [discriminate|].
      apply runs_ret. apply runs_bind.
      eapply runs_conseq; [apply run_pages_runs, Hrollback|].
      intros r d' (prs & -> & Hrun). apply runs_ret.
      eexists _, _, ((0, 999) :: _). split; [reflexivity|].
      cbn [r_pages r_snapshot_id r_attempted_total r_inserted_total
           r_duplicates_total r_errors_total r_status r_ranges r_total_count
           r_decided_page_count].
      norm_app. rewrite app_nil_r in Hrun.
      split; [reflexivity|].
      split; [econstructor; [right; exact Hfail|exact Hrun]|].
      rewrite errors_total_count. repeat split.
      exists pr0, prs, 3. repeat split.
      assert (Hst : p_status pr0 = "error").
      { destruct Hfail
          as (b & d0 & cm & d1 & rb & exc & _ & _ & _ & _ & _ & _ & _ & _
              & Hpr).
        apply (Hpr pr0 eq_refl). }
      rewrite Hst. cbn. split; reflexivity.
Qed.

End RunSnapshot.

(** ** The runner on the scenario of its test *)

Example scenario_partial :
  let r := fst (run_snapshot_once scenario_env "20260104_120000"
                  (Some [(0, 999); (1000, 1999); (2000, 2999)]) []) in
  match r with
  | inr res =>
      r_status res = "partial" /\
      map p_status (r_pages res) = ["ok"; "error"; "ok"] /\
      r_attempted_total res = 3 /\ r_inserted_total res = 2 /\
      r_duplicates_total res = 1 /\ r_errors_total res = 1
  | inl _ => False
  end.
Proof. vm_compute. repeat split. Qed.

Example scenario_partial_calls :
  let tr := snd (run_snapshot_once scenario_env "20260104_120000"
                   (Some [(0, 999); (1000, 1999); (2000, 2999)]) []) in
  fetches tr = [(0, 999); (1000, 1999); (2000, 2999)] /\
  commits tr = 2%nat /\ rollbacks tr = 1%nat /\
  ledger_ranges (committed tr) = [(0, 999); (2000, 2999)].
Proof. vm_compute. repeat split. Qed.

Example scenario_dynamic :
  let r := fst (run_snapshot_once scenario_env "20260104_120000" None []) in
  match r with
  | inr res =>
      r_status res = "partial" /\
      map range_of (r_pages res) = [(0, 999); (1000, 1999); (2000, 2999)] /\
      r_ranges res = [(1000, 1999); (2000, 2999)] /\
      r_decided_page_count res = Some 3
  | inl _ => False
  end.
Proof. vm_compute. repeat split. Qed.

(** ** Properties of the runner *)

Section RunnerProperties.

Variable E : Env.
Variable snapshot_id : string.

Lemma with_status_length (status : string) (l : list PageResult) :
  (List.length (with_status status l) <= List.length l)%nat.
Proof. apply filter_length_le. Qed.

Lemma with_status_all (status : string) (l : list PageResult) :
  List.length (with_status status l) = List.length l <->
  Forall (fun pr => p_status pr = status) l.
Proof.
  unfold with_status. induction l as [|p l IH]; cbn [filter List.length].
  - split; [constructor|reflexivity].
  - pose proof (filter_length_le
                  (fun pr => String.eqb (p_status pr) status) l) as Hle.
    destruct (String.eqb_spec (p_status p) status) as [Heq|Hne];
      cbn [List.length].
    + split.
      * intros H. constructor; [assumption|]. apply IH. lia.
      * intros H. inversion H; subst. f_equal. now apply IH.
    + split; [lia|]. intros H. inversion H; subst. contradiction.
Qed.

Lemma with_status_none (status : string) (l : list PageResult) :
  with_status status l = [] <->
  Forall (fun pr => p_status pr <> status) l.
Proof.
  unfold with_status. induction l as [|p l IH]; cbn [filter].
  - split; [constructor|reflexivity].
  - destruct (String.eqb_spec (p_status p) status) as [Heq|Hne].
    + split; [discriminate|]. intros H. inversion H; subst. contradiction.
    + rewrite IH. split.
      * intros H. now constructor.
      * intros H. now inversion H.
Qed.

(** The aggregate status in terms of the breakdown. *)
Lemma status_rule (pages : list PageResult) (errors : Z) :
  errors = Z.of_nat (List.length (with_status "error" pages)) ->
  let status :=
    if errors =? 0 then "ok"
    else if errors =? Z.of_nat (List.length pages) then "error"
    else "partial" in
  (status = "ok" <-> Forall (fun pr => p_status pr <> "error") pages) /\
  (status = "error" <->
   pages <> [] /\ Forall (fun pr => p_status pr = "error") pages) /\
  (status = "partial" <->
   Exists (fun pr => p_status pr = "error") pages /\
   Exists (fun pr => p_status pr <> "error") pages).
Proof.
  intros Herr status. subst status.
  pose proof (with_status_length "error" pages) as Hle.
  pose proof (with_status_all "error" pages) as Hall.
  pose proof (with_status_none "error" pages) as Hnone.
  assert (Hex1 : Exists (fun pr => p_status pr = "error") pages <->
                 ~ Forall (fun pr => p_status pr <> "error") pages).
  { rewrite <- Exists_Forall_neg.
    - split; apply Exists_impl; intros pr; [tauto|].
      destruct (string_dec (p_status pr) "error"); tauto.
    - intros pr. destruct (string_dec (p_status pr) "error"); tauto. }
  assert (Hex2 : Exists (fun pr => p_status pr <> "error") pages <->
                 ~ Forall (fun pr => p_status pr = "error") pages).
  { rewrite <- Exists_Forall_neg; [reflexivity|].
    intros pr. destruct (string_dec (p_status pr) "error"); tauto. }
  assert (Hz : errors = 0 <-> with_status "error" pages = []).
  { rewrite Herr. split.
    - intros H. apply length_zero_iff_nil. lia.
    - intros ->. reflexivity. }
  assert (Hn : errors = Z.of_nat (List.length pages) <->
               List.length (with_status "error" pages) = List.length pages)
    by (rewrite Herr; lia).
  destruct (Z.eqb_spec errors 0) as [H0|H0].
  - assert (Hno : Forall (fun pr => p_status pr <> "error") pages)
      by (apply Hnone, Hz, H0).
    split; [tauto|]. split.
    + split; [discriminate|]. intros [Hne Hal]. exfalso.
      destruct pages as [|p l]; [now apply Hne|].
      inversion Hal; inversion Hno; subst. contradiction.
    + split; [discriminate|]. intros [He _]. apply Hex1 in He. tauto.
  - assert (Hsome : ~ Forall (fun pr => p_status pr <> "error") pages)
      by (rewrite <- Hnone, <- Hz; assumption).
    destruct (Z.eqb_spec errors (Z.of_nat (List.length pages))) as [H1|H1].
    + assert (Hal : Forall (fun pr => p_status pr = "error") pages)
        by (apply Hall, Hn, H1).
      split; [split; [discriminate|tauto]|]. split.
      * split; [|reflexivity]. intros _. split; [|assumption].
        intros ->. apply H0. rewrite Herr. reflexivity.
      * split; [discriminate|]. intros [_ He]. apply Hex2 in He. tauto.
    + assert (Hnal : ~ Forall (fun pr => p_status pr = "error") pages)
        by (rewrite <- Hall, <- Hn; assumption).
      split; [split; [discriminate|tauto]|]. split.
      * split; [discriminate|tauto].
      * split; [|reflexivity]. intros _. split; [apply Hex1|apply Hex2];
          assumption.
Qed.

End RunnerProperties.

Section RunnerTheorems.

Variable E : Env.
Variable snapshot_id : string.

(** X6.  With supplied ranges, on a connection whose [rollback()] does not
    raise and with a clock that answers, [run_snapshot_once] returns; the
    provider is asked for exactly the supplied ranges, in their order,
    whichever pages fail; the breakdown has one entry per range, in the same
    order; and neither [total_count] nor [decided_page_count] is set. *)
Theorem run_snapshot_once_supplied_ranges (ranges : list (Z * Z))
    (tr : trace) (t : datetime) :
  rollback_returns E ->
  clock_reply E (List.length tr) = inr t ->
  exists res d,
    run_snapshot_once E snapshot_id (Some ranges) tr = (inr res, tr ++ d) /\
    fetches d = ranges /\
    map range_of (r_pages res) = ranges /\
    r_ranges res = ranges /\
    r_snapshot_id res = snapshot_id /\
    r_total_count res = None /\ r_decided_page_count res = None.
Proof.
  intros Hrb Hclock.
  destruct (runs_outcome _ _ _
              (run_snapshot_once_runs E Hrb snapshot_id (Some ranges) tr t
                 Hclock))
    as (r & d & Hrun & res & d' & all & -> & -> & Hpages & Hid & _ & _ & _
        & _ & _ & -> & Hranges & Htot & Hdec).
  destruct (pages_run_facts _ _ _ _ _ _ _ _ Hpages)
    as (Hmap & _ & Hf & _).
  exists res, ((ClockNow, true) :: d'). repeat split; assumption.
Qed.

(** X7.  In a run that returns, every entry of the breakdown has status
    ["ok"] or ["error"]; [commit()] returned once for every ["ok"] entry and
    [rollback()] was called once for every ["error"] entry, and not
    otherwise. *)
Theorem run_snapshot_once_commit_rollback
    (call_ranges : option (list (Z * Z))) (tr : trace) (t : datetime) :
  rollback_returns E ->
  clock_reply E (List.length tr) = inr t ->
  exists res d,
    run_snapshot_once E snapshot_id call_ranges tr = (inr res, tr ++ d) /\
    Forall (fun pr => p_status pr = "ok" \/ p_status pr = "error")
           (r_pages res) /\
    commits d = List.length (with_status "ok" (r_pages res)) /\
    rollbacks d = List.length (with_status "error" (r_pages res)).
Proof.
  intros Hrb Hclock.
  destruct (runs_outcome _ _ _
              (run_snapshot_once_runs E Hrb snapshot_id call_ranges tr t
                 Hclock))
    as (r & d & Hrun & res & d' & all & -> & -> & Hpages & _).
  destruct (pages_run_facts _ _ _ _ _ _ _ _ Hpages)
    as (_ & Hst & _ & Hc & Hr & _).
  exists res, ((ClockNow, true) :: d'). repeat split; assumption.
Qed.

(** X8.  In a run that returns, the totals are the sums of the entries'
    counters, [errors_total] is the number of ["error"] entries, and the
    status is ["ok"] exactly when no entry is an error (an empty breakdown
    included), ["error"] exactly when there is an entry and every entry is
    an error, and ["partial"] exactly when some entry is an error and some
    is not. *)
Theorem run_snapshot_once_aggregate
    (call_ranges : option (list (Z * Z))) (tr : trace) (t : datetime) :
  rollback_returns E ->
  clock_reply E (List.length tr) = inr t ->
  exists res tr',
    run_snapshot_once E snapshot_id call_ranges tr = (inr res, tr') /\
    r_attempted_total res = sum_of p_attempted_rows (r_pages res) /\
    r_inserted_total res = sum_of p_inserted_rows (r_pages res) /\
    r_duplicates_total res = sum_of p_skipped_duplicates (r_pages res) /\
    r_errors_total res
    = Z.of_nat (List.length (with_status "error" (r_pages res))) /\
    (r_status res = "ok" <->
     Forall (fun pr => p_status pr <> "error") (r_pages res)) /\
    (r_status res = "error" <->
     r_pages res <> [] /\
     Forall (fun pr => p_status pr = "error") (r_pages res)) /\
    (r_status res = "partial" <->
     Exists (fun pr => p_status pr = "error") (r_pages res) /\
     Exists (fun pr => p_status pr <> "error") (r_pages res)).
Proof.
  intros Hrb Hclock.
  destruct (runs_outcome _ _ _
              (run_snapshot_once_runs E Hrb snapshot_id call_ranges tr t
                 Hclock))
    as (r & d & Hrun & res & d' & all & -> & -> & _ & _ & Ha & Hi & Hd & He
        & Hs & _).
  exists res, (tr ++ (ClockNow, true) :: d').
  split; [assumption|]. split; [assumption|]. split; [assumption|].
  split; [assumption|]. split; [assumption|].
  rewrite Hs. apply status_rule, He.
Qed.

(** X9.  Without supplied ranges, the run first asks the provider for
    [(0, 999)] and then for the remaining ranges, [(0, 999)] not among them:
    three more ranges when the first page went through and reported a
    [total_count] above 3000, two more otherwise; [decided_page_count] is
    4 or 3 accordingly, [total_count] is the first page's when it went
    through and unset otherwise, and the replies to the later pages have no
    part in either.  [ranges] holds the remaining ranges only. *)
Theorem run_snapshot_once_dynamic (tr : trace) (t : datetime) :
  rollback_returns E ->
  clock_reply E (List.length tr) = inr t ->
  exists res d pr0 rest,
    run_snapshot_once E snapshot_id None tr = (inr res, tr ++ d) /\
    r_pages res = pr0 :: rest /\ range_of pr0 = (0, 999) /\
    fetches d = (0, 999) :: r_ranges res /\
    map range_of rest = r_ranges res /\
    let went_through_with_total :=
      match fetch_page_reply E (S (List.length tr)) 0 999 with
      | inr pd =>
          if String.eqb (p_status pr0) "ok" then Some (pd_total_count pd)
          else None
      | inl _ => None
      end in
    match went_through_with_total with
    | Some total_count =>
        r_total_count res = total_count /\
        r_decided_page_count res = Some (decide_page_count total_count) /\
        r_ranges res
        = (if decide_page_count total_count =? 4
           then [(1000, 1999); (2000, 2999); (3000, 3999)]
           else [(1000, 1999); (2000, 2999)])
    | None =>
        p_status pr0 = "error" /\
        r_total_count res = None /\ r_decided_page_count res = Some 3 /\
        r_ranges res = [(1000, 1999); (2000, 2999)]
    end.
Proof.
  intros Hrb Hclock.
  destruct (runs_outcome _ _ _
              (run_snapshot_once_runs E Hrb snapshot_id None tr t Hclock))
    as (r & d & Hrun & res & d' & all & -> & -> & Hpages & _ & _ & _ & _ & _
        & _ & pr0 & rest & decided & Hp & -> & Hdec & Hranges & Hfirst).
  destruct (pages_run_facts _ _ _ _ _ _ _ _ Hpages)
    as (Hmap & Hst & Hf & _).
  rewrite Hp in Hmap, Hst. cbn [map] in Hmap.
  assert (Hr0 : range_of pr0 = (0, 999)) by congruence.
  assert (Hrest : map range_of rest = r_ranges res) by congruence.
  exists res, ((ClockNow, true) :: d'), pr0, rest.
  split; [assumption|]. split; [assumption|]. split; [assumption|].
  split; [exact Hf|]. split; [assumption|]. cbv zeta.
  inversion Hst as [|? ? Hst0 _]; subst.
  destruct (String.eqb_spec (p_status pr0) "ok") as [Hok|Hnok].
  - destruct Hfirst as (pd & Hfetch & Htot & ->). rewrite Hfetch.
    rewrite Htot. repeat split; assumption.
  - destruct Hfirst as [Htot ->].
    assert (Herr : p_status pr0 = "error") by tauto.
    destruct (fetch_page_reply E (S (List.length tr)) 0 999);
      repeat split; assumption.
Qed.


End RunnerTheorems.

Section PageTheorems.

Variable E : Env.
Variables (snapshot_id : string) (collected_at : datetime).

(** X12.  When the provider raises on a page and [rollback()] returns, the
    page returns an entry with status ["error"], all counters 0 and the
    message of the provider's exception, after a handler that ends no
    transaction and one rollback.  That holds whatever becomes of the
    handler's own ledger entry: its exception, if any, is passed over. *)
Theorem run_page_provider_failure (s e : Z) (tr : trace) (e0 : exn) :
  fetch_page_reply E (List.length tr) s e = inl e0 ->
  rollback_returns E ->
  exists d1,
    run_page E snapshot_id collected_at (s, e) tr
    = (inr {| p_start := s; p_end := e; p_status := "error";
              p_attempted_rows := 0; p_inserted_rows := 0;
              p_skipped_duplicates := 0;
              p_error := Some (str_exn e0) |},
       tr ++ (FetchPage s e, false) :: d1 ++ [(ConnRollback, true)]) /\
    quiet d1.
Proof.
  intros Hfetch Hrb.
  destruct (runs_outcome _ _ _
              (run_page_runs E snapshot_id collected_at s e tr))
    as (r & d & Hrun & [(pr & -> & Hok)|Hfail]).
  - destruct Hok as (pd & ? & ? & ? & Hf & _). congruence.
  - destruct Hfail
      as (b & d0 & cm & d1 & rb & exc & -> & _ & Hq1 & _ & Hr & Hrbt & _
          & Hexc & Hpr).
    destruct (Hexc e0 Hfetch) as (-> & -> & -> & ->).
    rewrite (Hrbt Hrb) in *. destruct r as [e1|pr]; [discriminate|].
    destruct (Hpr pr eq_refl) as (Hs & He & Hst & Herr & Hz & _).
    destruct (Hz (or_introl eq_refl)) as (Ha & Hi & Hd).
    exists d1. split; [|assumption].
    rewrite Hrun. cbn [app]. do 2 f_equal.
    destruct pr; cbn in *; congruence.
Qed.

(** X13.  An ["error"] entry of a page of the loop has its counters at 0
    unless it is [commit()] that raised: then the entry keeps the number of
    rows the provider returned as [attempted_rows], and what the ingest
    reported, although the rows have been rolled back. *)
Theorem run_page_error_counters (s e : Z) (tr d : trace) (pr : PageResult) :
  run_page E snapshot_id collected_at (s, e) tr = (inr pr, tr ++ d) ->
  p_status pr = "error" ->
  (~ In (ConnCommit, false) d /\
   p_attempted_rows pr = 0 /\ p_inserted_rows pr = 0 /\
   p_skipped_duplicates pr = 0) \/
  (In (ConnCommit, false) d /\
   exists pd,
     fetch_page_reply E (List.length tr) s e = inr pd /\
     p_attempted_rows pr = Z.of_nat (List.length (pd_rows pd)) /\
     p_skipped_duplicates pr = p_attempted_rows pr - p_inserted_rows pr).
Proof.
  intros Heq Hst.
  destruct (runs_outcome _ _ _
              (run_page_runs E snapshot_id collected_at s e tr))
    as (r & d' & Hrun & H).
  rewrite Heq in Hrun. injection Hrun as <- Hd.
  apply app_inv_head in Hd. subst d'.
  destruct H as [(pr' & [= <-] & Hok)|Hfail].
  - destruct Hok as (? & ? & ? & ? & _ & _ & _ & _ & _ & ->).
    discriminate Hst.
  - destruct Hfail
      as (b & d0 & cm & d1 & rb & exc & -> & Hq0 & Hq1 & Hcm & _ & _ & _
          & _ & Hpr).
    destruct (Hpr pr eq_refl) as (_ & _ & _ & _ & Hz & Hk).
    destruct Hcm as [->| ->].
    + left. split; [|apply Hz; now left].
      cbn [app]. intros [Hin|Hin]; [discriminate|].
      apply in_app_or in Hin as [Hin|Hin];
        [exact (quiet_no_commit _ _ Hq0 Hin)|].
      apply in_app_or in Hin as [Hin|[Hin|[]]];
        [exact (quiet_no_commit _ _ Hq1 Hin)|discriminate].
    + right. split; [|apply Hk; [discriminate|reflexivity]].
      right. apply in_or_app. right. now left.
Qed.

End PageTheorems.

Section RollbackFailure.

Variable E : Env.
Variable snapshot_id : string.

(** X11.  [rollback()] is not guarded: when the provider raises on the
    first supplied range and the rollback raises too, the rollback's
    exception leaves [run_snapshot_once], and no later range is asked
    for. *)
Theorem run_snapshot_once_rollback_raises (s e : Z) (rest : list (Z * Z))
    (tr : trace) (t : datetime) (e0 e1 : exn) :
  clock_reply E (List.length tr) = inr t ->
  fetch_page_reply E (S (List.length tr)) s e = inl e0 ->
  rollback_raises E e1 ->
  exists d,
    run_snapshot_once E snapshot_id (Some ((s, e) :: rest)) tr
    = (inl e1, tr ++ d) /\
    fetches d = [(s, e)].
Proof.
  intros Hclock Hfetch Hraise.
  assert (H : runs (run_snapshot_once E snapshot_id (Some ((s, e) :: rest)))
                tr (fun r d => r = inl e1 /\ fetches d = [(s, e)])).
  { unfold run_snapshot_once.
    apply runs_bind, runs_perform. rewrite Hclock. cbn [returned].
    apply runs_bind, runs_ret, runs_bind. cbn [run_pages].
    apply runs_bind.
    eapply runs_conseq; [apply run_page_runs|].
    assert (Hlen : List.length (tr ++ [(ClockNow, true)])
                   = S (List.length tr))
      by (rewrite length_app, Nat.add_comm; reflexivity).
    intros r d [(pr & -> & Hok)|Hfail].
    - destruct Hok as (pd & ? & ? & ? & Hf & _).
      rewrite app_nil_r, Hlen in Hf. congruence.
    - destruct Hfail
        as (b & d0 & cm & d1 & rb & exc & -> & _ & Hq1 & _ & _ & _ & Hre
            & Hexc & _).
      rewrite app_nil_r, Hlen in Hexc.
      destruct (Hexc e0 Hfetch) as (_ & -> & -> & ->).
      rewrite (Hre e1 Hraise). split; [reflexivity|].
      cbn [app].
      change ((ClockNow, true) :: (FetchPage s e, false)
              :: d1 ++ [(ConnRollback, rb)])
        with ([(ClockNow, true); (FetchPage s e, false)]
              ++ d1 ++ [(ConnRollback, rb)]).
      rewrite !fetches_app, (quiet_fetches d1 Hq1). reflexivity. }
  destruct (runs_outcome _ _ _ H) as (r & d & Hrun & -> & Hf).
  exists d. split; assumption.
Qed.

End RollbackFailure.

(** ** The theorems on the scripted environments *)

(** The scenario of the runner's test, with its three supplied ranges. *)
Lemma run_snapshot_once_supplied_ranges_witness :
  let ranges := [(0, 999); (1000, 1999); (2000, 2999)] in
  exists res d,
    run_snapshot_once scenario_env "20260104_120000" (Some ranges) []
    = (inr res, [] ++ d) /\
    fetches d = ranges /\
    map range_of (r_pages res) = ranges /\
    r_ranges res = ranges /\
    r_snapshot_id res = "20260104_120000" /\
    r_total_count res = None /\ r_decided_page_count res = None.
Proof.
  exact (run_snapshot_once_supplied_ranges scenario_env "20260104_120000"
           [(0, 999); (1000, 1999); (2000, 2999)] []
           (kst 2026 1 4 12 0 0 0) (fun n => eq_refl) eq_refl).
Defined.

Lemma run_snapshot_once_commit_rollback_witness :
  exists res d,
    run_snapshot_once scenario_env "20260104_120000"
      (Some [(0, 999); (1000, 1999); (2000, 2999)]) []
    = (inr res, [] ++ d) /\
    Forall (fun pr => p_status pr = "ok" \/ p_status pr = "error")
           (r_pages res) /\
    commits d = List.length (with_status "ok" (r_pages res)) /\
    rollbacks d = List.length (with_status "error" (r_pages res)).
Proof.
  exact (run_snapshot_once_commit_rollback scenario_env "20260104_120000"
           (Some [(0, 999); (1000, 1999); (2000, 2999)]) []
           (kst 2026 1 4 12 0 0 0) (fun n => eq_refl) eq_refl).
Defined.

Lemma run_snapshot_once_aggregate_witness :
  exists res tr',
    run_snapshot_once scenario_env "20260104_120000"
      (Some [(0, 999); (1000, 1999); (2000, 2999)]) []
    = (inr res, tr') /\
    r_attempted_total res = sum_of p_attempted_rows (r_pages res) /\
    r_inserted_total res = sum_of p_inserted_rows (r_pages res) /\
    r_duplicates_total res = sum_of p_skipped_duplicates (r_pages res) /\
    r_errors_total res
    = Z.of_nat (List.length (with_status "error" (r_pages res))) /\
    (r_status res = "ok" <->
     Forall (fun pr => p_status pr <> "error") (r_pages res)) /\
    (r_status res = "error" <->
     r_pages res <> [] /\
     Forall (fun pr => p_status pr = "error") (r_pages res)) /\
    (r_status res = "partial" <->
     Exists (fun pr => p_status pr = "error") (r_pages res) /\
     Exists (fun pr => p_status pr <> "error") (r_pages res)).
Proof.
  exact (run_snapshot_once_aggregate scenario_env "20260104_120000"
           (Some [(0, 999); (1000, 1999); (2000, 2999)]) []
           (kst 2026 1 4 12 0 0 0) (fun n => eq_refl) eq_refl).
Defined.

(** The same provider without supplied ranges: the first page goes through
    and reports no [total_count]. *)
Lemma run_snapshot_once_dynamic_witness :
  exists res d pr0 rest,
    run_snapshot_once scenario_env "20260104_120000" None []
    = (inr res, [] ++ d) /\
    r_pages res = pr0 :: rest /\ range_of pr0 = (0, 999) /\
    fetches d = (0, 999) :: r_ranges res /\
    map range_of rest = r_ranges res /\
    let went_through_with_total :=
      match fetch_page_reply scenario_env 1 0 999 with
      | inr pd =>
          if String.eqb (p_status pr0) "ok" then Some (pd_total_count pd)
          else None
      | inl _ => None
      end in
    match went_through_with_total with
    | Some total_count =>
        r_total_count res = total_count /\
        r_decided_page_count res = Some (decide_page_count total_count) /\
        r_ranges res
        = (if decide_page_count total_count =? 4
           then [(1000, 1999); (2000, 2999); (3000, 3999)]
           else [(1000, 1999); (2000, 2999)])
    | None =>
        p_status pr0 = "error" /\
        r_total_count res = None /\ r_decided_page_count res = Some 3 /\
        r_ranges res = [(1000, 1999); (2000, 2999)]
    end.
Proof.
  exact (run_snapshot_once_dynamic scenario_env "20260104_120000" []
           (kst 2026 1 4 12 0 0 0) (fun n => eq_refl) eq_refl).
Defined.


(** The provider raises on [(1000, 1999)], and every rollback raises. *)
Lemma run_snapshot_once_rollback_raises_witness :
  exists d,
    run_snapshot_once no_rollback_env "20260104_120000"
      (Some [(1000, 1999); (2000, 2999)]) []
    = (inl (Exception "connection lost"), [] ++ d) /\
    fetches d = [(1000, 1999)].
Proof.
  exact (run_snapshot_once_rollback_raises no_rollback_env "20260104_120000"
           1000 1999 [(2000, 2999)] [] (kst 2026 1 4 12 0 0 0)
           (Exception "Network error") (Exception "connection lost")
           eq_refl eq_refl (fun n => eq_refl)).
Defined.

Lemma run_page_provider_failure_witness :
  exists d1,
    run_page scenario_env "20260104_120000" (kst 2026 1 4 12 0 0 0)
      (1000, 1999) []
    = (inr {| p_start := 1000; p_end := 1999; p_status := "error";
              p_attempted_rows := 0; p_inserted_rows := 0;
              p_skipped_duplicates := 0;
              p_error := Some (str_exn (Exception "Network error")) |},
       [] ++ (FetchPage 1000 1999, false) :: d1 ++ [(ConnRollback, true)]) /\
    quiet d1.
Proof.
  exact (run_page_provider_failure scenario_env "20260104_120000"
           (kst 2026 1 4 12 0 0 0) 1000 1999 []
           (Exception "Network error") eq_refl (fun n => eq_refl)).
Defined.

(** A page of two rows on a connection whose [commit()] raises. *)
Lemma run_page_error_counters_witness :
  let out := run_page no_commit_env "20260104_120000"
               (kst 2026 1 4 12 0 0 0) (0, 999) [] in
  exists pr,
    fst out = inr pr /\
    ((~ In (ConnCommit, false) (snd out) /\
      p_attempted_rows pr = 0 /\ p_inserted_rows pr = 0 /\
      p_skipped_duplicates pr = 0) \/
     (In (ConnCommit, false) (snd out) /\
      exists pd,
        fetch_page_reply no_commit_env 0 0 999 = inr pd /\
        p_attempted_rows pr = Z.of_nat (List.length (pd_rows pd)) /\
        p_skipped_duplicates pr = p_attempted_rows pr - p_inserted_rows pr)).
Proof.
  cbv zeta. eexists. split; [vm_compute; reflexivity|].
  apply (run_page_error_counters no_commit_env "20260104_120000"
           (kst 2026 1 4 12 0 0 0) 0 999 []);
    vm_compute; reflexivity.
Defined.

(* ===================================================================== *)
(** * The functions that talk to the database *)
(* ===================================================================== *)

(** The position of a call made after [n] more calls. *)
Ltac trace_length :=
  rewrite ?length_app; cbn [List.length Nat.add]; rewrite ?Nat.add_1_r.

Section StoreTheorems.

Variable E : Env.

(** X1.  [insert_call_log] asks for a cursor and, once it has one, executes
    its one statement and closes the cursor, whether the statement raised or
    not; it makes no other call, so it neither commits nor rolls back.  It
    returns exactly when the three calls returned; an exception of
    [close()] replaces the one of the statement. *)
Theorem insert_call_log_closes_cursor (snapshot_id : string)
    (page_start page_end : Z) (called_at : datetime) (status : string)
    (tr : trace) :
  let stmt := InsertCallLog (date_of called_at) snapshot_id page_start
                            page_end called_at status in
  exists r d,
    insert_call_log E snapshot_id page_start page_end called_at status tr
    = (r, tr ++ d) /\
    ((d = [(ConnCursor, false)] /\ returned r = false) \/
     (exists b1 b2,
         d = [(ConnCursor, true); (CursorExecute stmt, b1);
              (CursorClose, b2)] /\
         returned r = b1 && b2 /\
         (forall e1,
             conn_reply E (S (List.length tr)) (CursorExecute stmt)
             = Some e1 ->
             b1 = false /\ (b2 = true -> r = inl e1)) /\
         (forall e2,
             conn_reply E (S (S (List.length tr))) CursorClose = Some e2 ->
             b2 = false /\ r = inl e2))).
Proof.
  intros stmt.
  assert (H : runs (insert_call_log E snapshot_id page_start page_end
                                    called_at status) tr
                (fun r d =>
                   (d = [(ConnCursor, false)] /\ returned r = false) \/
                   (exists b1 b2,
                       d = [(ConnCursor, true); (CursorExecute stmt, b1);
                            (CursorClose, b2)] /\
                       returned r = b1 && b2 /\
                       (forall e1,
                           conn_reply E (S (List.length tr))
                                      (CursorExecute stmt) = Some e1 ->
                           b1 = false /\ (b2 = true -> r = inl e1)) /\
                       (forall e2,
                           conn_reply E (S (S (List.length tr))) CursorClose
                           = Some e2 ->
                           b2 = false /\ r = inl e2)))).
  { unfold insert_call_log. fold stmt. apply runs_bind, runs_perform.
    destruct (conn_reply E (List.length tr) ConnCursor) as [e|];
      cbn [returned]; [left; split; reflexivity|].
    unfold runs, post, finally_, conn_call, perform. trace_length.
    cbn [fst snd].
    destruct (conn_reply E (S (List.length tr)) (CursorExecute stmt))
      as [e1|];
      destruct (conn_reply E (S (S (List.length tr))) CursorClose) as [e2|];
      cbn [fst snd returned]; eexists;
      (split; [rewrite <- !app_assoc; cbn [app]; reflexivity|]);
      right; eexists _, _; (split; [reflexivity|]);
      (split; [reflexivity|]); split; intros e' [= <-] || intros e' [=];
      try (split; [reflexivity|]); try reflexivity; intros [=]. }
  exact (runs_outcome _ _ _ H).
Qed.

(** X2.  [ingest_rows_page] makes no call at all for a page without rows and
    reports three zeros.  Otherwise it talks to a cursor only: it never asks
    the provider, commits or rolls back.  When it returns, [attempted_rows]
    is the number of rows it was given, the one statement it executed is the
    bulk insert of all of them, and [skipped_duplicates] is what is left of
    [attempted_rows] after [inserted_rows]. *)
Theorem ingest_rows_page_counts (snapshot_id : string)
    (collected_at : datetime) (page_start page_end : Z) (rows : list dict)
    (tr : trace) :
  exists r d,
    ingest_rows_page E snapshot_id collected_at page_start page_end rows tr
    = (r, tr ++ d) /\
    quiet d /\
    (rows = [] -> d = [] /\ r = inr (mk_ingest 0 0 0)) /\
    forall ir, r = inr ir ->
      ir_attempted_rows ir = Z.of_nat (List.length rows) /\
      ir_skipped_duplicates ir = ir_attempted_rows ir - ir_inserted_rows ir /\
      (rows <> [] ->
       executed d
       = [InsertRaw (insert_values snapshot_id collected_at page_start
                                   page_end rows)]).
Proof.
  pose proof (ingest_rows_page_calls E snapshot_id collected_at page_start
                page_end rows tr) as H.
  cbv zeta in H. unfold post in H.
  destruct (ingest_rows_page E snapshot_id collected_at page_start page_end
              rows tr) as [r tr'].
  cbn [fst snd] in H. destruct rows as [|row rows].
  - destruct H as [-> ->]. exists (inr (mk_ingest 0 0 0)), [].
    rewrite app_nil_r. split; [reflexivity|]. split; [apply quiet_nil|].
    split; [split; reflexivity|].
    intros ir [= <-]. cbn. repeat split. intros Hne. now destruct Hne.
  - destruct H as [[-> Hr]|(b1 & b2 & -> & Hr & Hv)].
    + exists r, [(ConnCursor, false)]. split; [reflexivity|].
      split; [quiet_tac|]. split; [discriminate|].
      intros ir ->. discriminate Hr.
    + eexists r, _. split; [reflexivity|]. split; [quiet_tac|].
      split; [discriminate|].
      intros ir ->. cbn [returned] in Hr. symmetry in Hr.
      specialize (Hv Hr). injection Hv as ->.
      apply andb_true_iff in Hr as [-> ->].
      cbn [ir_attempted_rows ir_inserted_rows ir_skipped_duplicates].
      repeat split.
Qed.

(** X3.  When the bulk insert raises, [ingest_rows_page] still closes the
    cursor and raises a [RuntimeError] whose message is the fixed prefix
    followed by the message of the exception; when [close()] raises too, it
    is that exception that comes out. *)
Theorem ingest_rows_page_wraps (snapshot_id : string)
    (collected_at : datetime) (page_start page_end : Z) (row : dict)
    (rows : list dict) (tr : trace) (e : exn) :
  let stmt :=
    InsertRaw (insert_values snapshot_id collected_at page_start page_end
                             (row :: rows)) in
  conn_reply E (List.length tr) ConnCursor = None ->
  conn_reply E (S (List.length tr)) (CursorExecute stmt) = Some e ->
  exists r b,
    ingest_rows_page E snapshot_id collected_at page_start page_end
                     (row :: rows) tr
    = (r, tr ++ [(ConnCursor, true); (CursorExecute stmt, false);
                 (CursorClose, b)]) /\
    (conn_reply E (S (S (List.length tr))) CursorClose = None ->
     b = true /\
     r = inl (RuntimeError ("Raw 데이터 적재 실패: " ++ str_exn e)%string)) /\
    (forall e2,
        conn_reply E (S (S (List.length tr))) CursorClose = Some e2 ->
        b = false /\ r = inl e2).
Proof.
  intros stmt Hcur Hexe.
  rewrite ingest_rows_page_nonempty. cbv zeta. fold stmt.
  unfold bind, finally_, try_catch, conn_call, perform, raise.
  rewrite Hcur. cbn [returned]. trace_length. rewrite Hexe.
  cbn [returned]. trace_length.
  destruct (conn_reply E (S (S (List.length tr))) CursorClose) as [e2|];
    cbn [returned]; eexists _, _;
    (split; [rewrite <- !app_assoc; cbn [app]; reflexivity|]);
    split; try discriminate; try (intros _; split; reflexivity).
  intros e' [= <-]. split; reflexivity.
Qed.

(** X4.  [get_last_snapshot_at] reads and never writes: it executes the one
    [SELECT], makes no call but on the connection and its cursor, and closes
    the cursor it obtained.  When it returns, every call returned, and the
    result is the column of the row; it is [None] when there is no row and
    when the column is NULL, which is the case of an empty table. *)
Theorem get_last_snapshot_at_result (tr : trace) :
  exists r d,
    get_last_snapshot_at E tr = (r, tr ++ d) /\
    quiet d /\
    Forall (eq SelectLastSnapshotAt) (executed d) /\
    ((d = [(ConnCursor, false)] /\ returned r = false) \/
     (exists d0 b,
         d = (ConnCursor, true) :: d0 ++ [(CursorClose, b)])) /\
    forall v, r = inr v ->
      d = [(ConnCursor, true); (CursorExecute SelectLastSnapshotAt, true);
           (CursorFetchone, true); (CursorClose, true)] /\
      v = match fetchone_reply E (S (S (List.length tr))) with
          | Some (Some created_at) => Some created_at
          | _ => None
          end.
Proof.
  unfold get_last_snapshot_at, bind, finally_, cursor_fetchone, conn_call,
    perform, ret.
  destruct (conn_reply E (List.length tr) ConnCursor) as [e0|];
    cbn [returned].
  { exists (inl e0), [(ConnCursor, false)]. split; [reflexivity|].
    split; [quiet_tac|]. split; [constructor|].
    split; [left; split; reflexivity|]. discriminate. }
  trace_length.
  destruct (conn_reply E (S (List.length tr))
              (CursorExecute SelectLastSnapshotAt)) as [e1|];
    cbn [returned]; trace_length.
  { destruct (conn_reply E (S (S (List.length tr))) CursorClose) as [e2|];
      cbn [returned]; eexists _, _;
      (split; [rewrite <- !app_assoc; cbn [app]; reflexivity|]);
      (split; [quiet_tac|]); (split; [constructor|]);
      (split; [right; exists [(CursorExecute SelectLastSnapshotAt, false)];
               eexists; reflexivity|]);
      discriminate. }
  destruct (conn_reply E (S (S (List.length tr))) CursorFetchone) as [e2|];
    cbn [returned]; trace_length.
  { destruct (conn_reply E (S (S (S (List.length tr)))) CursorClose)
      as [e3|];
      cbn [returned]; eexists _, _;
      (split; [rewrite <- !app_assoc; cbn [app]; reflexivity|]);
      (split; [quiet_tac|]);
      (split; [repeat constructor|]);
      (split; [right; exists [(CursorExecute SelectLastSnapshotAt, true);
                              (CursorFetchone, false)];
               eexists; reflexivity|]);
      discriminate. }
  destruct (fetchone_reply E (S (S (List.length tr)))) as [[t|]|];
    trace_length;
    destruct (conn_reply E (S (S (S (List.length tr)))) CursorClose)
      as [e3|];
    cbn [returned]; eexists _, _;
    (split; [rewrite <- !app_assoc; cbn [app]; reflexivity|]);
    (split; [quiet_tac|]);
    (split; [repeat constructor|]);
    (split; [right; exists [(CursorExecute SelectLastSnapshotAt, true);
                            (CursorFetchone, true)];
             eexists; reflexivity|]);
    try discriminate; intros v [= <-]; split; reflexivity.
Qed.

End StoreTheorems.

(** A page of one row on a connection whose statements raise. *)
Lemma ingest_rows_page_wraps_witness :
  let t := kst 2026 1 4 12 0 0 0 in
  let stmt :=
    InsertRaw (insert_values "20260104_120000" t 0 999
                             [[("rowNum", "1")]]) in
  exists r b,
    ingest_rows_page no_execute_env "20260104_120000" t 0 999
                     [[("rowNum", "1")]] []
    = (r, [] ++ [(ConnCursor, true); (CursorExecute stmt, false);
                 (CursorClose, b)]) /\
    (conn_reply no_execute_env 2 CursorClose = None ->
     b = true /\
     r = inl (RuntimeError
                ("Raw 데이터 적재 실패: "
                 ++ str_exn (Exception "Deadlock found"))%string)) /\
    (forall e2,
        conn_reply no_execute_env 2 CursorClose = Some e2 ->
        b = false /\ r = inl e2).
Proof.
  exact (ingest_rows_page_wraps no_execute_env "20260104_120000"
           (kst 2026 1 4 12 0 0 0) 0 999 [("rowNum", "1")] [] []
           (Exception "Deadlock found") eq_refl eq_refl).
Defined.

Section ProviderTheorems.

Variable E : Env.

(** X5.  Unlike [ingest_rows_page], [ingest_provider_result] ends the
    transaction itself.  Without rows it makes no call.  With rows, once it
    has a cursor, either [commit()] returned or [rollback()] was called,
    never both, and the cursor was closed; it never asks the provider.  When
    it returns, the commit returned, the bulk insert of the rows of all
    pages is permanent, and [attempted_rows] is the number of those rows. *)
Theorem ingest_provider_result_ends_transaction (collected_at : datetime)
    (provider_result : seoul_subway.ProviderResult) (snapshot_id : string)
    (tr : trace) :
  let insert_rows :=
    provider_insert_values snapshot_id collected_at
                           (seoul_subway.pages provider_result) in
  exists r d,
    ingest_provider_result E collected_at provider_result snapshot_id tr
    = (r, tr ++ d) /\
    fetches d = [] /\
    (insert_rows = [] -> d = [] /\ r = inr (mk_ingest 0 0 0)) /\
    (In (ConnCursor, true) d ->
     (commits d + rollbacks d = 1)%nat /\
     exists b, In (CursorClose, b) d) /\
    forall ir, r = inr ir ->
      rollbacks d = 0%nat /\
      (insert_rows <> [] -> committed d = [InsertRaw insert_rows]) /\
      ir_attempted_rows ir = Z.of_nat (List.length insert_rows) /\
      ir_skipped_duplicates ir = ir_attempted_rows ir - ir_inserted_rows ir.
Proof.
  intros insert_rows. unfold ingest_provider_result. fold insert_rows.
  destruct insert_rows as [|v vs] eqn:Hrows.
  { exists (inr (mk_ingest 0 0 0)), []. rewrite app_nil_r.
    split; [reflexivity|]. split; [reflexivity|].
    split; [split; reflexivity|]. split; [intros []|].
    intros ir [= <-]. cbn. repeat split. intros Hne. now destruct Hne. }
  unfold bind, finally_, try_catch, cursor_rowcount, conn_call, perform,
    raise, ret.
  destruct (conn_reply E (List.length tr) ConnCursor) as [e0|];
    cbn [returned].
  { exists (inl e0), [(ConnCursor, false)]. split; [reflexivity|].
    split; [reflexivity|]. split; [discriminate|].
    split; [intros [[=]|[]]|discriminate]. }
  trace_length.
  destruct (conn_reply E (S (List.length tr))
              (CursorExecute (InsertRaw (v :: vs)))) as [e1|];
    cbn [returned]; trace_length.
  { destruct (conn_reply E (S (S (List.length tr))) ConnRollback) as [e2|];
      cbn [returned]; trace_length;
      destruct (conn_reply E (S (S (S (List.length tr)))) CursorClose)
        as [e3|];
      cbn [returned]; eexists _, _;
      (split; [rewrite <- !app_assoc; cbn [app]; reflexivity|]);
      (split; [reflexivity|]); (split; [discriminate|]);
      (split; [intros _; split; [reflexivity|];
               eexists; cbn [In]; do 3 right; left; reflexivity
              |discriminate]). }
  destruct (conn_reply E (S (S (List.length tr))) ConnCommit) as [e2|];
    cbn [returned]; trace_length.
  { destruct (conn_reply E (S (S (S (List.length tr)))) ConnRollback)
      as [e3|];
      cbn [returned]; trace_length;
      destruct (conn_reply E (S (S (S (S (List.length tr))))) CursorClose)
        as [e4|];
      cbn [returned]; eexists _, _;
      (split; [rewrite <- !app_assoc; cbn [app]; reflexivity|]);
      (split; [reflexivity|]); (split; [discriminate|]);
      (split; [intros _; split; [reflexivity|];
               eexists; cbn [In]; do 4 right; left; reflexivity
              |discriminate]). }
  destruct (conn_reply E (S (S (S (List.length tr)))) CursorClose) as [e3|];
    cbn [returned]; eexists _, _;
    (split; [rewrite <- !app_assoc; cbn [app]; reflexivity|]);
    (split; [reflexivity|]); (split; [discriminate|]);
    (split; [intros _; split; [reflexivity|];
             eexists; cbn [In]; do 3 right; left; reflexivity|]);
    try discriminate.
  intros ir [= <-]. cbn [ir_attempted_rows ir_inserted_rows
                          ir_skipped_duplicates fst snd].
  repeat split.
Qed.

End ProviderTheorems.

Section FetchFixed.

Variable E : Env.







End FetchFixed.


(* ===================================================================== *)
(** * The orchestrator *)
(* ===================================================================== *)

Section Orchestrator.

Variable E : Env.

(** The lookup of the last snapshot talks to a cursor only, and reads. *)
Lemma get_last_snapshot_at_quiet (tr : trace) :
  exists r d,
    get_last_snapshot_at E tr = (r, tr ++ d) /\
    quiet d /\ Forall (eq SelectLastSnapshotAt) (executed d).
Proof.
  unfold get_last_snapshot_at, bind, finally_, cursor_fetchone, conn_call,
    perform, ret.
  destruct (conn_reply E (List.length tr) ConnCursor);
    cbn [returned];
    [eexists _, [_]; split; [reflexivity|]; split;
     [quiet_tac|constructor]|].
  destruct (conn_reply E (List.length (tr ++ [(ConnCursor, true)]))
              (CursorExecute SelectLastSnapshotAt));
    cbn [returned].
  { destruct (conn_reply E _ CursorClose); cbn [returned]; eexists _, _;
      (split; [rewrite <- !app_assoc; cbn [app]; reflexivity|]);
      (split; [quiet_tac|constructor]). }
  destruct (conn_reply E _ CursorFetchone); cbn [returned].
  { destruct (conn_reply E _ CursorClose); cbn [returned]; eexists _, _;
      (split; [rewrite <- !app_assoc; cbn [app]; reflexivity|]);
      (split; [quiet_tac|repeat constructor]). }
  destruct (fetchone_reply E _) as [[t|]|];
    destruct (conn_reply E _ CursorClose); cbn [returned]; eexists _, _;
    (split; [rewrite <- !app_assoc; cbn [app]; reflexivity|]);
    (split; [quiet_tac|repeat constructor]).
Qed.


(** X16.  A naive [now] makes [run_orchestrator_once] raise the
    [ValueError] of the time policy before any call on the provider, the
    connection or the clock. *)
Theorem run_orchestrator_once_naive_now (now : datetime)
    (call_ranges : option (list (Z * Z))) (used_calls_today : Z)
    (tr : trace) :
  tzinfo now = None ->
  run_orchestrator_once E now call_ranges used_calls_today tr
  = (inl (ValueError "now는 timezone-aware datetime이어야 합니다"), tr).
Proof.
  intros Htz. unfold run_orchestrator_once, decide_collection.
  rewrite Htz. reflexivity.
Qed.

(** X17.  A run that is not executed has asked nothing of the provider, has
    committed and rolled back nothing, and has executed no statement but the
    lookup of the last snapshot; its reason is one of the three gates, and
    it carries no snapshot id.  When it is the time policy that blocks, not
    even the lookup is made. *)
Theorem run_orchestrator_once_not_executed (now : datetime)
    (call_ranges : option (list (Z * Z))) (used_calls_today : Z)
    (tr tr' : trace) (res : OrchestratorResult) :
  run_orchestrator_once E now call_ranges used_calls_today tr
  = (inr res, tr') ->
  o_executed res = false ->
  exists d,
    tr' = tr ++ d /\ quiet d /\
    Forall (eq SelectLastSnapshotAt) (executed d) /\
    o_snapshot_id res = None /\
    (o_reason res = "time_policy_blocked" /\ d = [] \/
     o_reason res = "interval_not_elapsed" \/
     o_reason res = "budget_blocked").
Proof.
  unfold run_orchestrator_once.
  destruct (decide_collection now) as [e|policy]; [discriminate|].
  destruct (should_collect policy); cbn [negb].
  2:{ intros [= <- <-] _. exists []. rewrite app_nil_r.
      split; [reflexivity|]. split; [apply quiet_nil|].
      split; [constructor|]. split; [reflexivity|].
      left. split; reflexivity. }
  unfold bind at 1.
  destruct (get_last_snapshot_at_quiet tr) as (r & d & -> & Hq & Hex).
  destruct r as [e|last]; [discriminate|]. cbv zeta.
  destruct (match option_map _ (option_map _ last) with
            | Some us => us <? interval_seconds policy * US_PER_SECOND
            | None => false
            end).
  { intros [= <- <-] _. exists d. repeat split; try assumption.
    right. left. reflexivity. }
  destruct (negb (b_should_collect _)).
  { intros [= <- <-] _. exists d. repeat split; try assumption.
    right. right. reflexivity. }
  unfold bind, ret.
  destruct (run_snapshot_once E _ call_ranges (tr ++ d)) as [[e|sr] tr2];
    [discriminate|].
  intros [= <- <-]. discriminate.
Qed.



End Orchestrator.

(** ** The theorems on the scripted environments *)

(** A naive noon. *)
Lemma run_orchestrator_once_naive_now_witness :
  run_orchestrator_once scenario_env
    (mk_datetime 2026 1 4 12 0 0 0 None) None 0 []
  = (inl (ValueError "now는 timezone-aware datetime이어야 합니다"), []).
Proof.
  exact (run_orchestrator_once_naive_now scenario_env
           (mk_datetime 2026 1 4 12 0 0 0 None) None 0 [] eq_refl).
Defined.

(** Noon with the whole budget used: the lookup is made, the run is not. *)
Lemma run_orchestrator_once_not_executed_witness :
  exists res tr',
    run_orchestrator_once scenario_env (kst 2026 1 4 12 0 0 0) None 1000 []
    = (inr res, tr') /\
    o_executed res = false /\
    exists d,
      tr' = [] ++ d /\ quiet d /\
      Forall (eq SelectLastSnapshotAt) (executed d) /\
      o_snapshot_id res = None /\
      (o_reason res = "time_policy_blocked" /\ d = [] \/
       o_reason res = "interval_not_elapsed" \/
       o_reason res = "budget_blocked").
Proof.
  let v := eval vm_compute in
        (run_orchestrator_once scenario_env (kst 2026 1 4 12 0 0 0) None
           1000 []) in
  match v with
  | (inr ?res, ?tr') =>
      exists res, tr';
      assert (H : run_orchestrator_once scenario_env
                    (kst 2026 1 4 12 0 0 0) None 1000 [] = (inr res, tr'))
        by (vm_compute; reflexivity);
      split; [exact H|];
      split; [reflexivity|];
      exact (run_orchestrator_once_not_executed scenario_env _ _ _ _ _ _
               H eq_refl)
  end.
Defined.



(* ===================================================================== *)
(** * The pure functions, further *)
(* ===================================================================== *)

Section PayloadHash.

(** X20.  The payload hash does not depend on the order in which the keys
    were inserted: two dicts with the same items have the same hash. *)
Theorem compute_payload_hash_order_free (m1 m2 : dict) :
  Permutation m1 m2 ->
  compute_payload_hash m1 = compute_payload_hash m2.
Proof.
  intros Hperm. unfold compute_payload_hash, canonical_json.
  now rewrite (sorted_permutation_invariant m1 m2 Hperm).
Qed.

(** X21.  The bytes that are hashed determine the payload: two dicts are
    hashed from the same bytes exactly when they hold the same items.
    Payloads that differ in a key or in a value are hashed from different
    bytes, so that they can only share a hash by a collision of SHA-256. *)
Theorem canonical_bytes_determine_payload (m1 m2 : dict) :
  encode_utf8 (canonical_json m1) = encode_utf8 (canonical_json m2) <->
  Permutation m1 m2.
Proof.
  split.
  - intros Heq. now apply canonical_json_inj, encode_utf8_inj.
  - intros Hperm. unfold canonical_json.
    now rewrite (sorted_permutation_invariant m1 m2 Hperm).
Qed.

End PayloadHash.

Section BudgetFurther.

(** X22.  The budget gate is monotone and ignores the date: if it lets a
    run proceed, it lets every run proceed that has used no more and
    requires no more, on whatever day; and what is left never grows with
    use. *)
Theorem check_budget_monotone (today today' : date)
    (used used' required required' : Z) (limit : option Z) :
  used <= used' -> required <= required' ->
  (b_should_collect (check_budget today' used' required' limit) = true ->
   b_should_collect (check_budget today used required limit) = true) /\
  remaining_calls (check_budget today' used' required' limit)
  <= remaining_calls (check_budget today used required limit).
Proof.
  intros Hu Hr.
  rewrite !check_budget_should_collect, !check_budget_remaining.
  rewrite !Z.leb_le. lia.
Qed.

End BudgetFurther.

Section PolicyFurther.


End PolicyFurther.

(** The payload of the hash test, with its keys in two orders. *)
Lemma compute_payload_hash_order_free_witness :
  compute_payload_hash [("c", "3"); ("a", "1"); ("b", "2")]
  = compute_payload_hash [("a", "1"); ("c", "3"); ("b", "2")].
Proof.
  apply (compute_payload_hash_order_free
           [("c", "3"); ("a", "1"); ("b", "2")]
           [("a", "1"); ("c", "3"); ("b", "2")]).
  apply perm_swap.
Defined.

Lemma check_budget_monotone_witness :
  (b_should_collect (check_budget (mk_date 2026 1 5) 996 4 None) = true ->
   b_should_collect (check_budget (mk_date 2026 1 4) 500 3 None) = true) /\
  remaining_calls (check_budget (mk_date 2026 1 5) 996 4 None)
  <= remaining_calls (check_budget (mk_date 2026 1 4) 500 3 None).
Proof.
  apply (check_budget_monotone (mk_date 2026 1 4) (mk_date 2026 1 5)
           500 996 3 4 None); lia.
Defined.


Section SnapshotId.

Lemma digit_value (n : Z) (k : nat) :
  nat_of_ascii (digit n k)
  = (48 + Z.to_nat ((n / 10 ^ Z.of_nat k) mod 10))%nat.
Proof.
  unfold digit. apply nat_ascii_embedding.
  pose proof (Z.mod_pos_bound (n / 10 ^ Z.of_nat k) 10 ltac:(lia)). lia.
Qed.

Lemma digit_eq (n m : Z) (k : nat) :
  digit n k = digit m k ->
  (n / 10 ^ Z.of_nat k) mod 10 = (m / 10 ^ Z.of_nat k) mod 10.
Proof.
  intros H. apply (f_equal nat_of_ascii) in H.
  rewrite !digit_value in H.
  pose proof (Z.mod_pos_bound (n / 10 ^ Z.of_nat k) 10 ltac:(lia)).
  pose proof (Z.mod_pos_bound (m / 10 ^ Z.of_nat k) 10 ltac:(lia)).
  lia.
Qed.

Lemma zero_padded_2_inj (n m : Z) :
  0 <= n < 100 -> 0 <= m < 100 ->
  digit n 1 = digit m 1 -> digit n 0 = digit m 0 -> n = m.
Proof.
  intros Hn Hm H1 H0. apply digit_eq in H1, H0.
  change (10 ^ Z.of_nat 1) with 10 in H1.
  change (10 ^ Z.of_nat 0) with 1 in H0.
  rewrite !Z.div_1_r in H0.
  Z.div_mod_to_equations. lia.
Qed.

Lemma zero_padded_4_inj (n m : Z) :
  0 <= n < 10000 -> 0 <= m < 10000 ->
  digit n 3 = digit m 3 -> digit n 2 = digit m 2 ->
  digit n 1 = digit m 1 -> digit n 0 = digit m 0 -> n = m.
Proof.
  intros Hn Hm H3 H2 H1 H0. apply digit_eq in H3, H2, H1, H0.
  change (10 ^ Z.of_nat 3) with 1000 in H3.
  change (10 ^ Z.of_nat 2) with 100 in H2.
  change (10 ^ Z.of_nat 1) with 10 in H1.
  change (10 ^ Z.of_nat 0) with 1 in H0.
  rewrite !Z.div_1_r in H0.
  Z.div_mod_to_equations. lia.
Qed.

Lemma days_in_month_le (y m : Z) : days_in_month y m <= 31.
Proof.
  unfold days_in_month.
  destruct (_ && _); [lia|].
  unfold DAYS_IN_MONTH.
  destruct (Z.to_nat m) as [|[|[|[|[|[|[|[|[|[|[|[|[|k]]]]]]]]]]]]];
    cbn; try lia.
  destruct k; cbn; lia.
Qed.

(** X24.  The snapshot id names the second: it has 15 characters, and for
    well-formed instants with a four-digit year, two of them have the same
    id exactly when they agree on year, month, day, hour, minute and
    second.  Runs started within the same second of the wall clock share
    their id, whatever their microseconds and zones. *)
Theorem strftime_snapshot_names_the_second (d1 d2 : datetime) :
  valid_datetime d1 -> valid_datetime d2 ->
  1000 <= year d1 -> 1000 <= year d2 ->
  String.length (strftime_snapshot d1) = 15%nat /\
  (strftime_snapshot d1 = strftime_snapshot d2 <->
   year d1 = year d2 /\ month d1 = month d2 /\ day d1 = day d2 /\
   hour d1 = hour d2 /\ minute d1 = minute d2 /\ second d1 = second d2).
Proof.
  intros (Hy1 & Hm1 & Hd1 & Hh1 & Hmi1 & Hs1 & _)
         (Hy2 & Hm2 & Hd2 & Hh2 & Hmi2 & Hs2 & _) _ _.
  pose proof (days_in_month_le (year d1) (month d1)) as Hle1.
  pose proof (days_in_month_le (year d2) (month d2)) as Hle2.
  split; [reflexivity|]. split.
  - unfold strftime_snapshot. cbn [zero_padded append].
    intros Heq.
    injection Heq as Y3 Y2 Y1 Y0 M1 M0 D1 D0 H1 H0 Mi1 Mi0 S1 S0.
    repeat split;
      first [apply zero_padded_4_inj; (lia || assumption)
            |apply zero_padded_2_inj; (lia || assumption)].
  - unfold strftime_snapshot.
    intros (-> & -> & -> & -> & -> & ->). reflexivity.
Qed.

End SnapshotId.

(** Two instants of the same second, half a second and nine hours of offset
    apart in their fields. *)
Lemma strftime_snapshot_names_the_second_witness :
  let d1 := kst 2026 1 4 12 0 0 0 in
  let d2 := mk_datetime 2026 1 4 12 0 0 500000 (Some 0) in
  String.length (strftime_snapshot d1) = 15%nat /\
  (strftime_snapshot d1 = strftime_snapshot d2 <->
   year d1 = year d2 /\ month d1 = month d2 /\ day d1 = day d2 /\
   hour d1 = hour d2 /\ minute d1 = minute d2 /\ second d1 = second d2).
Proof.
  apply (strftime_snapshot_names_the_second (kst 2026 1 4 12 0 0 0)
           (mk_datetime 2026 1 4 12 0 0 500000 (Some 0)));
    vm_compute; intuition discriminate.
Defined.

(* ===================================================================== *)
(** * Rows of the provider's answer as dicts *)
(* ===================================================================== *)

Section RowDict.

Lemma dict_mem_false (key : string) (row_dict : dict) :
  dict_mem key row_dict = false <-> ~ In key (map fst row_dict).
Proof.
  unfold dict_mem. induction row_dict as [|[k v] d IH]; cbn [existsb map In fst].
  - split; [intros _ []|reflexivity].
  - rewrite orb_false_iff, IH, String.eqb_neq. tauto.
Qed.

Lemma dict_set_new (row_dict : dict) (key value : string) :
  dict_mem key row_dict = false ->
  dict_set row_dict key value = row_dict ++ [(key, value)].
Proof.
  unfold dict_mem. induction row_dict as [|[k v] d IH];
    cbn [existsb dict_set app fst]; [reflexivity|].
  intros H. apply orb_false_iff in H as [Hk Hd].
  rewrite Hk, (IH Hd). reflexivity.
Qed.

Lemma str_nat_inj (a b : nat) : str_nat a = str_nat b -> a = b.
Proof.
  unfold str_nat. intros H.
  apply (f_equal NilEmpty.uint_of_string) in H.
  rewrite !NilEmpty.usu in H. injection H as H.
  now apply Unsigned.to_uint_inj.
Qed.

Lemma append_inv_head (a s1 s2 : string) :
  (a ++ s1 = a ++ s2)%string -> s1 = s2.
Proof.
  induction a as [|c a IH]; cbn [append]; [trivial|].
  intros [= H]. exact (IH H).
Qed.

Lemma numbered_key_inj (key : string) (a b : nat) :
  (key ++ "__" ++ str_nat a = key ++ "__" ++ str_nat b)%string -> a = b.
Proof.
  intros H. apply append_inv_head, append_inv_head in H.
  now apply str_nat_inj.
Qed.

Lemma next_free_key_some (fuel : nat) (key : string) (row_dict : dict)
    (counter : nat) (k : string) :
  next_free_key fuel key row_dict counter = Some k ->
  dict_mem k row_dict = false.
Proof.
  revert counter. induction fuel as [|fuel IH]; intros counter;
    cbn [next_free_key]; [discriminate|].
  destruct (dict_mem (key ++ "__" ++ str_nat counter)%string row_dict)
    eqn:Hmem; [apply IH|].
  intros [= <-]. exact Hmem.
Qed.

Lemma next_free_key_none (fuel : nat) (key : string) (row_dict : dict)
    (counter : nat) :
  next_free_key fuel key row_dict counter = None ->
  incl (map (fun c => (key ++ "__" ++ str_nat c)%string) (seq counter fuel))
       (map fst row_dict).
Proof.
  revert counter. induction fuel as [|fuel IH]; intros counter;
    cbn [next_free_key seq map]; [intros _ k []|].
  destruct (dict_mem (key ++ "__" ++ str_nat counter)%string row_dict)
    eqn:Hmem; [|discriminate].
  intros H k [<-|Hin]; [|exact (IH _ H k Hin)].
  destruct (in_dec string_dec (key ++ "__" ++ str_nat counter)%string
              (map fst row_dict)) as [Hin|Hnin]; [exact Hin|].
  apply dict_mem_false in Hnin. congruence.
Qed.

(** The search of lines 116-121 ends: among one more key than [row_dict]
    has, one is free. *)
Lemma next_free_key_total (key : string) (row_dict : dict) :
  exists k,
    next_free_key (S (List.length row_dict)) key row_dict 1 = Some k /\
    dict_mem k row_dict = false.
Proof.
  destruct (next_free_key (S (List.length row_dict)) key row_dict 1)
    as [k|] eqn:Hk.
  - exists k. split; [reflexivity|]. exact (next_free_key_some _ _ _ _ _ Hk).
  - exfalso. apply next_free_key_none in Hk.
    apply NoDup_incl_length in Hk.
    + rewrite !length_map, length_seq in Hk. lia.
    + apply Finite.Injective_map_NoDup; [|apply seq_NoDup].
      intros a b. apply numbered_key_inj.
Qed.

Lemma Element_induction (P : Element -> Prop) :
  (forall tag text children,
      Forall P children -> P (mk_element tag text children)) ->
  forall e, P e.
Proof.
  intros H. fix IH 1. intros [tag text children]. apply H.
  induction children as [|child children IHc]; constructor.
  - apply IH.
  - exact IHc.
Qed.

End RowDict.

Section ParseRowTheorems.

Variable strip : string -> string.

Lemma adds_for_each (body : dict -> Element -> option dict)
    (texts : Element -> list string) (children : list Element) :
  Forall (fun child =>
            forall row_dict, adds row_dict (texts child)
                                  (body row_dict child)) children ->
  forall row_dict,
    adds row_dict (flat_map texts children)
         (for_each body children row_dict).
Proof.
  induction 1 as [|child children Hchild _ IH]; intros row_dict;
    cbn [for_each flat_map].
  - exists []. rewrite app_nil_r. repeat split; [constructor|intros k []].
  - destruct (Hchild row_dict) as (new1 & -> & Ht1 & Hn1 & Hd1).
    destruct (IH (row_dict ++ new1)) as (new2 & -> & Ht2 & Hn2 & Hd2).
    exists (new1 ++ new2). rewrite <- app_assoc. split; [reflexivity|].
    rewrite !map_app, Ht1, Ht2. split; [reflexivity|]. split.
    + apply NoDup_app; [assumption|assumption|].
      intros k Hk1 Hk2. apply (Hd2 k Hk2).
      rewrite map_app. apply in_or_app. now right.
    + intros k Hk Hin. apply in_app_or in Hk as [Hk|Hk].
      * exact (Hd1 k Hk Hin).
      * apply (Hd2 k Hk). rewrite map_app. apply in_or_app. now left.
Qed.

(** X25.  [_parse_row_element] loses nothing and overwrites nothing.  For
    every element, dict and prefix, the search for a free key ends and the
    call returns; the entries that were in [row_dict] are still there,
    unchanged and in their places; and exactly one entry has been added for
    every leaf below the element, in document order, with the text of the
    leaf as its value, under a key that is new: the keys added are distinct
    from each other and from the keys that were there. *)
Theorem parse_row_element_lossless (elem : Element) (row_dict : dict)
    (prefix : string) :
  exists new,
    _parse_row_element strip elem row_dict prefix = Some (row_dict ++ new) /\
    map snd new = leaf_texts strip elem /\
    NoDup (map fst new) /\
    forall k, In k (map fst new) -> ~ In k (map fst row_dict).
Proof.
  change (adds row_dict (leaf_texts strip elem)
               (_parse_row_element strip elem row_dict prefix)).
  revert row_dict prefix.
  induction elem as [tag text children IH] using Element_induction.
  intros row_dict prefix. cbn [_parse_row_element leaf_texts].
  apply adds_for_each with
    (texts := fun child =>
                match elem_children child with
                | _ :: _ => leaf_texts strip child
                | [] => [leaf_text strip child]
                end).
  clear row_dict. eapply Forall_impl; [|exact IH].
  intros child Hchild row_dict. cbv zeta.
  destruct (elem_children child) as [|c cs]; [|apply Hchild].
  set (key := if String.eqb prefix "" then elem_tag child
              else (prefix ++ elem_tag child)%string).
  assert (Hkey : exists k,
             (if dict_mem key row_dict
              then next_free_key (S (List.length row_dict)) key row_dict 1
              else Some key) = Some k /\
             dict_mem k row_dict = false).
  { destruct (dict_mem key row_dict) eqn:Hmem.
    - apply next_free_key_total.
    - exists key. split; [reflexivity|exact Hmem]. }
  destruct Hkey as (k & -> & Hk).
  exists [(k, leaf_text strip child)].
  rewrite (dict_set_new _ _ _ Hk). split; [reflexivity|].
  split; [reflexivity|]. cbn [map fst]. split.
  - constructor; [intros []|constructor].
  - intros k' [<-|[]]. now apply dict_mem_false.
Qed.

(** The loop over the children of a flat row with distinct tags. *)
Lemma parse_flat_children (children : list Element) (row_dict : dict) :
  Forall (fun child => elem_children child = []) children ->
  NoDup (map elem_tag children) ->
  (forall child, In child children ->
                 ~ In (elem_tag child) (map fst row_dict)) ->
  _parse_row_element strip (mk_element "row" None children) row_dict ""
  = Some (row_dict
          ++ map (fun child => (elem_tag child, leaf_text strip child))
                 children).
Proof.
  cbn [_parse_row_element String.eqb].
  intros Hleaf. revert row_dict.
  induction Hleaf as [|child children Hc _ IH]; intros row_dict Hnd Hnew;
    cbn [for_each map].
  - now rewrite app_nil_r.
  - rewrite Hc. cbv zeta.
    assert (Hmem : dict_mem (elem_tag child) row_dict = false)
      by (apply dict_mem_false, Hnew; now left).
    rewrite Hmem, (dict_set_new _ _ _ Hmem).
    cbn [map] in Hnd. apply NoDup_cons_iff in Hnd as [Hnotin Hnd].
    rewrite IH; [now rewrite <- app_assoc|assumption|].
    intros child' Hin. rewrite map_app. cbn [map fst]. intros Hin'.
    apply in_app_or in Hin' as [Hin'|[Heq|[]]].
    + apply (Hnew child'); [now right|assumption].
    + apply Hnotin. rewrite Heq. now apply in_map.
Qed.

(** X26.  A row whose children are leaves with distinct tags, parsed into
    an empty dict without a prefix as [parse_xml] does, gives the dict of
    its tags and texts, in document order: no key is renamed. *)
Theorem parse_flat_row (tag : string) (text : option string)
    (children : list Element) :
  Forall (fun child => elem_children child = []) children ->
  NoDup (map elem_tag children) ->
  _parse_row_element strip (mk_element tag text children) [] ""
  = Some (map (fun child => (elem_tag child, leaf_text strip child))
              children).
Proof.
  intros Hleaf Hnd.
  change (_parse_row_element strip (mk_element tag text children) [] "")
    with (_parse_row_element strip (mk_element "row" None children) [] "").
  rewrite (parse_flat_children children [] Hleaf Hnd); [reflexivity|].
  intros child _ [].
Qed.

End ParseRowTheorems.

(** A repeated tag is numbered, a nested tag is prefixed, and an element
    without text gives the empty string. *)
Example parse_nested_row :
  _parse_row_element (fun s => s) nested_row [] ""
  = Some [("a", "1"); ("a__1", "2"); ("b_c", "3"); ("b_c__1", "");
          ("a__2", "4")].
Proof. vm_compute. reflexivity. Qed.

Lemma parse_flat_row_witness :
  _parse_row_element (fun s => s) flat_row [] ""
  = Some (map (fun child => (elem_tag child, leaf_text (fun s => s) child))
              (elem_children flat_row)).
Proof.
  apply (parse_flat_row (fun s => s) "row" None (elem_children flat_row)).
  - repeat constructor.
  - cbn. repeat constructor; cbn; intuition discriminate.
Defined.
